(** * figma-relay-poc: the relay handlers, embedded and verified

    The repository holds two serverless handlers for the same endpoint
    family:

    - the caching relay (in-memory cache, [getCache], [setCache],
      [fetchJson], [pickTopScreens], [handler]); it is embedded at the
      top level of this file;
    - the plain, uncached relay of [api/figma-enrich.js]; it is embedded
      in [Module Enrich].

    Conventions of the embedding.

    - A JavaScript string is a [string] holding its UTF-8 bytes.  Equality,
      concatenation, [startsWith] and [includes] agree with the UTF-16
      operations of the source on well-formed strings.
    - A JavaScript value that comes out of [JSON.parse], or that the
      handler builds, is a [value].  Numbers are integers: the handlers
      only copy upstream numbers or test them for truthiness.
    - An object is the list of its own properties in enumeration order;
      the [Map] used as cache is the list of its entries in insertion
      order, which is the order [cache.entries()] yields.
    - [Date.now()] is an explicit time in milliseconds.  Time advances
      only across an [await]: each upstream answer says how long it took.
    - The upstream is a function from the request URL to what [fetch]
      does with it.  Everything the handler fetched is logged, in order.
    - An exception is a value [Throw]; the handler's [try]/[catch] turns
      it into the 500 answer.
    - A query parameter is a [param]: one string, or the list of strings
      that [req.query] delivers for a repeated parameter. *)

From Stdlib Require Import ZArith List String Ascii Bool Lia DecimalString.
Import ListNotations.
Local Open Scope string_scope.
Local Open Scope Z_scope.
Set Warnings "-register-all".

(** ** Strings *)

Module Str.

(** [hay.includes(needle)] *)
Fixpoint includes (needle hay : string) : bool :=
  if String.prefix needle hay then true
  else match hay with
       | EmptyString => false
       | String _ rest => includes needle rest
       end.

(** [hay.startsWith(p)] *)
Definition startsWith (p hay : string) : bool := String.prefix p hay.

(** Decimal rendering of an integer, as a template literal renders it. *)
Definition of_Z (z : Z) : string := NilZero.string_of_int (Z.to_int z).

Definition code (c : ascii) : N := N_of_ascii c.

Definition hex_digit (n : N) : ascii :=
  if (n <? 10)%N then ascii_of_N (48 + n) else ascii_of_N (55 + n).

(** The characters [encodeURIComponent] leaves alone:
    letters, digits and [-_.!~*'()]. *)
Definition uri_unreserved (c : ascii) : bool :=
  let n := code c in
  ((65 <=? n) && (n <=? 90) || (97 <=? n) && (n <=? 122)
   || (48 <=? n) && (n <=? 57)
   || (n =? 45) || (n =? 95) || (n =? 46) || (n =? 33) || (n =? 126)
   || (n =? 42) || (n =? 39) || (n =? 40) || (n =? 41))%N.

(** [encodeURIComponent(s)]: every other byte of the UTF-8 form becomes
    [%XX]. *)
Fixpoint encodeURIComponent (s : string) : string :=
  match s with
  | EmptyString => EmptyString
  | String c rest =>
      if uri_unreserved c then String c (encodeURIComponent rest)
      else String "%" (String (hex_digit (code c / 16))
                         (String (hex_digit (code c mod 16))
                            (encodeURIComponent rest)))
  end.

End Str.

(** ** Numbers as [parseInt], [Math.max] and [Math.min] see them *)

Inductive num : Type :=
| NaN
| Int (z : Z).

Definition Math_max (a : num) (b : Z) : num :=
  match a with
  | NaN => NaN
  | Int z => Int (Z.max z b)
  end.

Definition Math_min (a : num) (b : Z) : num :=
  match a with
  | NaN => NaN
  | Int z => Int (Z.min z b)
  end.

(** [String(n)] inside a template literal. *)
Definition num_to_string (n : num) : string :=
  match n with
  | NaN => "NaN"
  | Int z => Str.of_Z z
  end.

(** [len >= n]: every comparison with [NaN] is false. *)
Definition ge_num (len : nat) (n : num) : bool :=
  match n with
  | NaN => false
  | Int z => z <=? Z.of_nat len
  end.

Module ParseInt.

Definition ws1 (a : ascii) : bool :=
  let n := Str.code a in
  ((9 <=? n) && (n <=? 13) || (n =? 32))%N.

(** U+00A0 *)
Definition ws2 (a b : ascii) : bool :=
  ((Str.code a =? 194) && (Str.code b =? 160))%N.

(** U+1680, U+2000..U+200A, U+2028, U+2029, U+202F, U+205F, U+3000,
    U+FEFF *)
Definition ws3 (a b c : ascii) : bool :=
  let x := Str.code a in
  let y := Str.code b in
  let z := Str.code c in
  ((x =? 225) && (y =? 154) && (z =? 128)
   || (x =? 226) && (y =? 128)
      && ((128 <=? z) && (z <=? 138) || (z =? 168) || (z =? 169) || (z =? 175))
   || (x =? 226) && (y =? 129) && (z =? 159)
   || (x =? 227) && (y =? 128) && (z =? 128)
   || (x =? 239) && (y =? 187) && (z =? 191))%N.

(** Leading white space and line terminators are skipped. *)
Fixpoint trimStart (s : string) : string :=
  match s with
  | String a r1 =>
      if ws1 a then trimStart r1
      else match r1 with
           | String b r2 =>
               if ws2 a b then trimStart r2
               else match r2 with
                    | String c r3 => if ws3 a b c then trimStart r3 else s
                    | EmptyString => s
                    end
           | EmptyString => s
           end
  | EmptyString => s
  end.

Definition is_digit (c : ascii) : bool :=
  ((48 <=? Str.code c) && (Str.code c <=? 57))%N.

Definition digit (c : ascii) : Z := Z.of_N (Str.code c) - 48.

(** The longest prefix of decimal digits; [None] when it is empty. *)
Fixpoint digits (s : string) (acc : option Z) : option Z :=
  match s with
  | String c rest =>
      if is_digit c
      then digits rest (Some (10 * match acc with Some a => a | None => 0 end
                              + digit c))
      else acc
  | EmptyString => acc
  end.

Definition signed (sign : Z) (s : string) : num :=
  match digits s None with
  | Some n => Int (sign * n)
  | None => NaN
  end.

(** [parseInt(s, 10)].  The result is the mathematical integer; the
    source rounds integers beyond 2^53 to a double, which no comparison
    with 1 or 25 can see. *)
Definition parseInt (s : string) : num :=
  match trimStart s with
  | String "-" rest => signed (-1) rest
  | String "+" rest => signed 1 rest
  | t => signed 1 t
  end.

End ParseInt.

(** ** JavaScript values *)

Inductive value : Type :=
| VUndef
| VNull
| VBool (b : bool)
| VNum (n : Z)
| VStr (s : string)
| VArr (items : list value)
| VObj (fields : list (string * value)).

Module Js.

(** Truthiness, as [!x], [x || y] and [if (x)] decide it. *)
Definition truthy (v : value) : bool :=
  match v with
  | VUndef | VNull => false
  | VBool b => b
  | VNum n => negb (n =? 0)
  | VStr s => negb (s =? "")%string
  | VArr _ | VObj _ => true
  end.

(** [a || b] *)
Definition or (a b : value) : value := if truthy a then a else b.

Fixpoint assoc {A : Type} (k : string) (l : list (string * A)) : option A :=
  match l with
  | [] => None
  | (k', x) :: rest => if (k =? k')%string then Some x else assoc k rest
  end.

(** [v?.k] for the property names the handlers read ([document],
    [children], [type], [id], [name], [lastModified], [nodes]): none of
    them is a property of an array, a string, a number or a boolean, so
    only an object can answer. *)
Definition get (v : value) (k : string) : value :=
  match v with
  | VObj fields => match assoc k fields with Some x => x | None => VUndef end
  | _ => VUndef
  end.

(** [{...fields, k: x}]: an existing property keeps its place. *)
Fixpoint set (k : string) (x : value) (fields : list (string * value))
  : list (string * value) :=
  match fields with
  | [] => [(k, x)]
  | (k', y) :: rest =>
      if (k =? k')%string then (k', x) :: rest else (k', y) :: set k x rest
  end.

Fixpoint indexed (i : nat) (l : list value) : list (string * value) :=
  match l with
  | [] => []
  | x :: rest => (Str.of_Z (Z.of_nat i), x) :: indexed (S i) rest
  end.

Definition chars (s : string) : list value :=
  map (fun c => VStr (String c EmptyString)) (list_ascii_of_string s).

(** The own enumerable properties that [{...v}] copies. *)
Definition spread (v : value) : list (string * value) :=
  match v with
  | VObj fields => fields
  | VArr items => indexed 0 items
  | VStr s => indexed 0 (chars s)
  | _ => []
  end.

Definition keys (v : value) : list string := map fst (spread v).

(** [String(v)]; inside [join], [undefined] and [null] render empty. *)
Fixpoint ToString (v : value) : string :=
  match v with
  | VUndef => "undefined"
  | VNull => "null"
  | VBool true => "true"
  | VBool false => "false"
  | VNum n => Str.of_Z n
  | VStr s => s
  | VArr items =>
      (fix join (l : list value) : string :=
         match l with
         | [] => ""
         | x :: rest =>
             let sx := match x with
                       | VUndef | VNull => ""
                       | _ => ToString x
                       end in
             match rest with
             | [] => sx
             | _ :: _ => sx ++ "," ++ join rest
             end
         end) items
  | VObj _ => "[object Object]"
  end.

(** [items.join(",")] *)
Definition join (items : list value) : string := ToString (VArr items).

End Js.

(** ** Exceptions *)

Inductive result (A : Type) : Type :=
| Ok (a : A)
| Throw (message : string).
Arguments Ok {A} a.
Arguments Throw {A} message.

Definition bind {A B : Type} (r : result A) (k : A -> result B) : result B :=
  match r with
  | Ok a => k a
  | Throw m => Throw m
  end.

Notation "'do' x <- r ; k" := (bind r (fun x => k))
  (at level 10, x name, r at level 100, k at level 200).

(** What [for (const x of v)] walks through.  An array yields its items
    and a string its characters; anything else that reaches the loops is
    not iterable and the loop throws a [TypeError] (its message depends on
    the engine and is never inspected). *)
Definition iterate (v : value) : result (list value) :=
  match v with
  | VArr items => Ok items
  | VStr s => Ok (Js.chars s)
  | _ => Throw "not iterable"
  end.

(** ** The cache: [getCache], [setCache] *)

Record entry : Type := mkEntry { ts : Z; stored : value }.

(** The [Map], as the list of its entries in insertion order. *)
Definition Cache : Type := list (string * entry).

(** [10 * 60 * 1000] *)
Definition TTL_MS : Z := 10 * 60 * 1000.

Module CacheMap.

(** [cache.get(key)] *)
Definition get (key : string) (c : Cache) : option entry := Js.assoc key c.

(** [cache.delete(key)] *)
Definition delete (key : string) (c : Cache) : Cache :=
  filter (fun kv => negb (key =? fst kv)%string) c.

(** [cache.set(key, e)]: a key already there keeps its place. *)
Fixpoint set (key : string) (e : entry) (c : Cache) : Cache :=
  match c with
  | [] => [(key, e)]
  | (k, e') :: rest =>
      if (key =? k)%string then (k, e) :: rest else (k, e') :: set key e rest
  end.

(** A [Map] holds a key once. *)
Definition wf (c : Cache) : Prop := NoDup (map fst c).

End CacheMap.

(** [getCache(key)] at time [now]: the payload, or [None] for [null],
    and the cache it leaves. *)
Definition getCache (key : string) (now : Z) (c : Cache) : option value * Cache :=
  match CacheMap.get key c with
  | None => (None, c)
  | Some item =>
      if now - ts item >? TTL_MS
      then (None, CacheMap.delete key c)
      else (Some (stored item), c)
  end.

(** [setCache(key, value)] at time [now]. *)
Definition setCache (key : string) (v : value) (now : Z) (c : Cache) : Cache :=
  CacheMap.set key (mkEntry now v) c.

(** ** The upstream and [fetchJson] *)

(** What the handler reads from a [Response]: [resp.status],
    [resp.headers.get("content-type")] ([None] for [null]), what
    [resp.json()] resolves to ([None] when it rejects, as on a body that
    does not parse) and what [resp.text()] resolves to. *)
Record Response : Type := mkResponse {
  r_status : Z;
  r_content_type : option string;
  r_json : option value;
  r_text : option string
}.

(** [resp.ok] *)
Definition r_ok (resp : Response) : bool :=
  (200 <=? r_status resp) && (r_status resp <=? 299).

Inductive fetched : Type :=
| Rejected (message : string)
| Resolved (resp : Response).

(** What awaiting a fetch costs and gives. *)
Record answer : Type := mkAnswer { elapsed : Z; settled : fetched }.

Definition upstream : Type := string -> answer.

(** The object [fetchJson] returns. *)
Record FetchResult : Type := mkFetchResult {
  ok : bool;
  status : Z;
  json : value;
  text : string
}.

Definition fetchJson (net : upstream) (url : string) : result FetchResult :=
  match settled (net url) with
  | Rejected m => Throw m
  | Resolved resp =>
      let ct := match r_content_type resp with Some s => s | None => "" end in
      let bodyJson :=
        if Str.includes "application/json" ct
        then match r_json resp with Some v => v | None => VNull end
        else VNull in
      let bodyText :=
        if Str.includes "application/json" ct
        then ""
        else match r_text resp with Some t => t | None => "" end in
      Ok (mkFetchResult (r_ok resp) (r_status resp) bodyJson bodyText)
  end.

(** ** [pickTopScreens] *)

(** [page?.type !== "CANVAS"] is false *)
Definition is_canvas (page : value) : bool :=
  match Js.get page "type" with
  | VStr t => (t =? "CANVAS")%string
  | _ => false
  end.

(** [["FRAME", "SECTION"].includes(node?.type)] *)
Definition is_screen (node : value) : bool :=
  match Js.get node "type" with
  | VStr t => (t =? "FRAME")%string || (t =? "SECTION")%string
  | _ => false
  end.

(** [{ id: node.id, name: node.name }] *)
Definition screen_of (node : value) : value :=
  VObj [("id", Js.get node "id"); ("name", Js.get node "name")].

(** How a loop body leaves: on to the next round, or [return screens]. *)
Inductive flow : Type :=
| Next (screens : list value)
| Return (screens : list value).

(** The inner loop over the children of one canvas. *)
Fixpoint scan_nodes (limit : num) (nodes screens : list value) : flow :=
  match nodes with
  | [] => Next screens
  | node :: rest =>
      if is_screen node
      then let screens' := (screens ++ [screen_of node])%list in
           if ge_num (List.length screens') limit then Return screens'
           else scan_nodes limit rest screens'
      else scan_nodes limit rest screens
  end.

(** The outer loop over the pages. *)
Fixpoint scan_pages (limit : num) (pages screens : list value)
  : result (list value) :=
  match pages with
  | [] => Ok screens
  | page :: rest =>
      if negb (is_canvas page) then scan_pages limit rest screens
      else
        do nodes <- iterate (Js.or (Js.get page "children") (VArr []));
        match scan_nodes limit nodes screens with
        | Return s => Ok s
        | Next s => scan_pages limit rest s
        end
  end.

Definition pickTopScreens (fileJson : value) (limit : num)
  : result (list value) :=
  do pages <- iterate (Js.or (Js.get (Js.get fileJson "document") "children")
                         (VArr []));
  scan_pages limit pages [].

(** ** The handler *)

(** [process.env]: a variable is unset ([None]) or holds a string. *)
Record environment : Type := mkEnv {
  RELAY_KEY : option string;
  FIGMA_PAT : option string
}.

(** A query parameter as [req.query] delivers it: a string, or an array
    of strings when the parameter is repeated ([?k=a&k=b]). *)
Inductive param : Type :=
| One (s : string)
| Many (items : list string).

Coercion One : string >-> param.

(** [String(p)], which is also what a template literal, [parseInt] and
    [encodeURIComponent] make of it: an array is joined with commas. *)
Definition param_string (p : param) : string :=
  match p with
  | One s => s
  | Many items => String.concat "," items
  end.

(** The parameter as a JavaScript value. *)
Definition param_value (p : param) : value :=
  match p with
  | One s => VStr s
  | Many items => VArr (map VStr items)
  end.

(** What the handler reads of a request: [req.method],
    [req.headers["x-relay-key"]] and the three query parameters, each
    [None] for [undefined]. *)
Record request : Type := mkRequest {
  method : string;
  x_relay_key : option string;
  q_file_key : option param;
  q_depth : option param;
  q_limit : option param
}.

(** [res.status(code).json(body)] *)
Record reply : Type := mkReply { code : Z; body : value }.

(** One run of a handler: its answer, the cache it leaves and the URLs it
    fetched, in order. *)
Record outcome : Type := mkOutcome {
  answered : reply;
  cache_after : Cache;
  calls : list string
}.

(** [x] when it is truthy: [None] for [undefined] and for the empty
    string. *)
Definition present (x : option string) : option string :=
  match x with
  | Some s => if (s =? "")%string then None else Some s
  | None => None
  end.

(** A query parameter when it is truthy: [None] for [undefined] and for
    the empty string; an array is always truthy. *)
Definition given (x : option param) : option param :=
  match x with
  | Some (One s) => if (s =? "")%string then None else Some (One s)
  | Some (Many items) => Some (Many items)
  | None => None
  end.

(** [String(x || d)] *)
Definition or_default (x : option param) (d : string) : string :=
  match given x with
  | Some p => param_string p
  | None => d
  end.

(** [a === b] on two values that are each a string or [undefined]. *)
Definition same (a b : option string) : bool :=
  match a, b with
  | Some x, Some y => (x =? y)%string
  | None, None => true
  | _, _ => false
  end.

(** [["1", "2", "3"].includes(depth)] *)
Definition depth_allowed (depth : string) : bool :=
  existsb (String.eqb depth) ["1"; "2"; "3"].

(** The [catch] branch. *)
Definition unexpected (message : string) : reply :=
  mkReply 500 (VObj [("error", VStr "Unexpected error");
                     ("detail", VStr message)]).

(** The test of the fallback loop on one cache entry, at time [now]. *)
Definition fallback_match (fileKey : param) (now : Z) (kv : string * entry)
  : bool :=
  Str.startsWith (param_string fileKey ++ "|") (fst kv)
  && (now - ts (snd kv) <=? TTL_MS).

Definition file_url (fileKey : param) (depth : string) : string :=
  "https://api.figma.com/v1/files/"
  ++ Str.encodeURIComponent (param_string fileKey)
  ++ "?depth=" ++ Str.encodeURIComponent depth.

Definition nodes_url (fileKey : param) (ids : string) : string :=
  "https://api.figma.com/v1/files/"
  ++ Str.encodeURIComponent (param_string fileKey)
  ++ "/nodes?ids=" ++ Str.encodeURIComponent ids.

(** [Math.min(Math.max(parseInt(req.query.limit || "10", 10), 1), 25)] *)
Definition effective_limit (q : option param) : num :=
  Math_min (Math_max (ParseInt.parseInt (or_default q "10")) 1) 25.

(** The payload object of a miss. *)
Definition payload_of (fileKey : param) (fileJson : value)
  (screens : list value) (nodes : value) : value :=
  VObj [("file_key", param_value fileKey);
        ("file_name", Js.or (Js.get fileJson "name") (VStr ""));
        ("last_modified", Js.or (Js.get fileJson "lastModified") (VStr ""));
        ("screens", VArr screens);
        ("nodes", nodes)].

(** What [getCache] hands back: the payload, or [null]. *)
Definition or_null (cached : option value) : value :=
  match cached with
  | Some v => v
  | None => VNull
  end.

(** [{ ...v, _cache: marker }] *)
Definition with_marker (v : value) (marker : string) : value :=
  VObj (Js.set "_cache" (VStr marker) (Js.spread v)).

(** The handler from its cache key on (steps 1 to 4 of the source), for
    the [fileKey], [depth] and [limit] that the first half worked out. *)
Definition serve (net : upstream) (now : Z) (fileKey : param)
  (depth : string) (limit : num) (cache : Cache) : outcome :=
  let ckey :=
    param_string fileKey ++ "|d=" ++ depth ++ "|l=" ++ num_to_string limit in
  let (cached, cache1) := getCache ckey now cache in
  if Js.truthy (or_null cached) then
    mkOutcome (mkReply 200 (with_marker (or_null cached) "hit")) cache1 []
  else
  let fileUrl := file_url fileKey depth in
  match fetchJson net fileUrl with
  | Throw m => mkOutcome (unexpected m) cache1 [fileUrl]
  | Ok fileRes =>
  let now1 := now + elapsed (net fileUrl) in
  if status fileRes =? 429 then
    match find (fallback_match fileKey now1) cache1 with
    | Some (_, v) =>
        mkOutcome (mkReply 200 (with_marker (stored v) "fallback_on_429"))
          cache1 [fileUrl]
    | None =>
        mkOutcome
          (mkReply 429
             (VObj [("error",
                     VStr "Figma rate limited (429) and no cache available yet. Retry in a few minutes.")]))
          cache1 [fileUrl]
    end
  else if negb (ok fileRes) || negb (Js.truthy (json fileRes)) then
    mkOutcome
      (mkReply (if status fileRes =? 0 then 502 else status fileRes)
         (VObj [("error", VStr "Figma file fetch failed");
                ("figma_status", VNum (status fileRes));
                ("figma_body",
                 Js.or (Js.or (json fileRes) (VStr (text fileRes))) VNull)]))
      cache1 [fileUrl]
  else
  let fileJson := json fileRes in
  match pickTopScreens fileJson limit with
  | Throw m => mkOutcome (unexpected m) cache1 [fileUrl]
  | Ok screens =>
  let ids := Js.join (map (fun s => Js.get s "id") screens) in
  let nodesUrl := nodes_url fileKey ids in
  if (ids =? "")%string then
    let payload := payload_of fileKey fileJson screens (VObj []) in
    mkOutcome (mkReply 200 (with_marker payload "miss_set"))
      (setCache ckey payload now1 cache1) [fileUrl]
  else
  match fetchJson net nodesUrl with
  | Throw m => mkOutcome (unexpected m) cache1 [fileUrl; nodesUrl]
  | Ok nodesRes =>
  let now2 := now1 + elapsed (net nodesUrl) in
  let nodes :=
    if status nodesRes =? 429 then VObj []
    else if ok nodesRes && Js.truthy (json nodesRes)
         then Js.or (Js.get (json nodesRes) "nodes") (VObj [])
         else VObj [] in
  let payload := payload_of fileKey fileJson screens nodes in
  mkOutcome (mkReply 200 (with_marker payload "miss_set"))
    (setCache ckey payload now2 cache1) [fileUrl; nodesUrl]
  end
  end
  end.

(** The handler: method, relay key and parameters, then [serve]. *)
Definition handler (env : environment) (net : upstream) (now : Z)
  (req : request) (cache : Cache) : outcome :=
  if negb (method req =? "GET")%string then
    mkOutcome (mkReply 405 (VObj [("error", VStr "Method not allowed")]))
      cache []
  else
  let relayKey := x_relay_key req in
  if match present (RELAY_KEY env) with None => true | Some _ => false end
     || negb (same relayKey (RELAY_KEY env)) then
    mkOutcome (mkReply 401 (VObj [("error", VStr "Unauthorized")])) cache []
  else
  let depth := or_default (q_depth req) "1" in
  let limit := effective_limit (q_limit req) in
  match given (q_file_key req) with
  | None =>
      mkOutcome (mkReply 400 (VObj [("error", VStr "Missing file_key")]))
        cache []
  | Some fileKey =>
  if negb (depth_allowed depth) then
    mkOutcome (mkReply 400 (VObj [("error", VStr "depth must be 1,2,3")]))
      cache []
  else
  match present (FIGMA_PAT env) with
  | None =>
      mkOutcome
        (mkReply 500
           (VObj [("error", VStr "Server misconfigured: FIGMA_PAT missing")]))
        cache []
  | Some _ => serve net now fileKey depth limit cache
  end
  end.

(** ** The uncached relay of [api/figma-enrich.js] *)

Module Enrich.

(** [v.k] without [?.]: reading a property of [undefined] or [null]
    throws. *)
Definition get_strict (v : value) (k : string) : result value :=
  match v with
  | VUndef | VNull => Throw "Cannot read properties"
  | _ => Ok (Js.get v k)
  end.

(** [["FRAME", "SECTION"].includes(t)] *)
Definition type_is_screen (t : value) : bool :=
  match t with
  | VStr s => (s =? "FRAME")%string || (s =? "SECTION")%string
  | _ => false
  end.

(** [t !== "CANVAS"] is false *)
Definition type_is_canvas (t : value) : bool :=
  match t with
  | VStr s => (s =? "CANVAS")%string
  | _ => false
  end.

(** The inner loop; it ends by [break] or by running out of nodes. *)
Fixpoint scan_nodes (limit : num) (nodes screens : list value)
  : result (list value) :=
  match nodes with
  | [] => Ok screens
  | node :: rest =>
      do t <- get_strict node "type";
      if type_is_screen t
      then let screens' := (screens ++ [screen_of node])%list in
           if ge_num (List.length screens') limit then Ok screens'
           else scan_nodes limit rest screens'
      else scan_nodes limit rest screens
  end.

(** The outer loop, with its own test after each canvas. *)
Fixpoint scan_pages (limit : num) (pages screens : list value)
  : result (list value) :=
  match pages with
  | [] => Ok screens
  | page :: rest =>
      do t <- get_strict page "type";
      if negb (type_is_canvas t) then scan_pages limit rest screens
      else
        do nodes <- iterate (Js.or (Js.get page "children") (VArr []));
        do s <- scan_nodes limit nodes screens;
        if ge_num (List.length s) limit then Ok s
        else scan_pages limit rest s
  end.

(** Step 2 of the handler, "discover top-level screens". *)
Definition discover (fileJson : value) (limit : num) : result (list value) :=
  do document <- get_strict fileJson "document";
  do children <- get_strict document "children";
  do pages <- iterate (Js.or children (VArr []));
  scan_pages limit pages [].

Definition file_url (fileKey : param) (depth : string) : string :=
  "https://api.figma.com/v1/files/" ++ param_string fileKey
  ++ "?depth=" ++ depth.

Definition nodes_url (fileKey : param) (ids : string) : string :=
  "https://api.figma.com/v1/files/" ++ param_string fileKey
  ++ "/nodes?ids=" ++ ids.

(** [Math.min(parseInt(req.query.limit || "10", 10), 25)] *)
Definition effective_limit (q : option param) : num :=
  Math_min (ParseInt.parseInt (or_default q "10")) 25.

(** [await resp.json()] *)
Definition read_json (resp : Response) : result value :=
  match r_json resp with
  | Some v => Ok v
  | None => Throw "Unexpected token"
  end.

(** The answer and the URLs fetched, in order. *)
Definition run : Type := (reply * list string)%type.

Definition handler (env : environment) (net : upstream) (req : request) : run :=
  if negb (method req =? "GET")%string then
    (mkReply 405 (VObj [("error", VStr "Method not allowed")]), [])
  else
  let relayKey := x_relay_key req in
  if negb (same relayKey (RELAY_KEY env)) then
    (mkReply 401 (VObj [("error", VStr "Unauthorized")]), [])
  else
  let depth := or_default (q_depth req) "1" in
  let limit := effective_limit (q_limit req) in
  match given (q_file_key req) with
  | None => (mkReply 400 (VObj [("error", VStr "Missing file_key")]), [])
  | Some fileKey =>
  let fileUrl := file_url fileKey depth in
  match settled (net fileUrl) with
  | Rejected m => (unexpected m, [fileUrl])
  | Resolved fileResp =>
  if negb (r_ok fileResp) then
    (mkReply (r_status fileResp)
       (VObj [("error", VStr "Figma file fetch failed")]), [fileUrl])
  else
  match (do fileJson <- read_json fileResp;
         do screens <- discover fileJson limit;
         Ok (fileJson, screens)) with
  | Throw m => (unexpected m, [fileUrl])
  | Ok (fileJson, screens) =>
  let ids := Js.join (map (fun s => Js.get s "id") screens) in
  let body (nodes : value) : value :=
    VObj [("file_key", param_value fileKey);
          ("file_name", Js.get fileJson "name");
          ("screens", VArr screens);
          ("nodes", nodes)] in
  if (ids =? "")%string then (mkReply 200 (body (VObj [])), [fileUrl])
  else
  let nodesUrl := nodes_url fileKey ids in
  match settled (net nodesUrl) with
  | Rejected m => (unexpected m, [fileUrl; nodesUrl])
  | Resolved nodesResp =>
  if r_ok nodesResp then
    match (do nodesJson <- read_json nodesResp;
           do nodes <- get_strict nodesJson "nodes";
           Ok (Js.or nodes (VObj []))) with
    | Throw m => (unexpected m, [fileUrl; nodesUrl])
    | Ok nodes => (mkReply 200 (body nodes), [fileUrl; nodesUrl])
    end
  else (mkReply 200 (body (VObj [])), [fileUrl; nodesUrl])
  end
  end
  end
  end.

End Enrich.

(** ** Document trees

    A well-formed document tree, as the design-tool API sends it: every
    node has a type, an id, a name and a list of children. *)

Inductive node : Type :=
| Node (type id name : string) (children : list node).

Definition node_type (n : node) : string :=
  match n with Node t _ _ _ => t end.

Definition node_id (n : node) : string :=
  match n with Node _ i _ _ => i end.

Definition node_name (n : node) : string :=
  match n with Node _ _ nm _ => nm end.

Definition node_children (n : node) : list node :=
  match n with Node _ _ _ ch => ch end.

(** The parsed JSON of a node. *)
Fixpoint to_value (n : node) : value :=
  match n with
  | Node t i nm ch =>
      VObj [("id", VStr i); ("name", VStr nm); ("type", VStr t);
            ("children", VArr (map to_value ch))]
  end.

(** The parsed JSON of a file whose document has the given pages. *)
Definition file_of (fileName lastModified : string) (pages : list node)
  : value :=
  VObj [("name", VStr fileName);
        ("lastModified", VStr lastModified);
        ("document",
         VObj [("id", VStr "0:0"); ("name", VStr "Document");
               ("type", VStr "DOCUMENT");
               ("children", VArr (map to_value pages))])].

(** The selection as the specification words it: the direct children of
    the root that are canvases and, within each, the direct children that
    are frames or sections, as [{id, name}] pairs in tree order. *)
Definition qualifies (n : node) : bool :=
  (node_type n =? "FRAME")%string || (node_type n =? "SECTION")%string.

Definition pair_of (n : node) : value :=
  VObj [("id", VStr (node_id n)); ("name", VStr (node_name n))].

Definition screens_of_page (page : node) : list value :=
  if (node_type page =? "CANVAS")%string
  then map pair_of (filter qualifies (node_children page))
  else [].

Definition all_screens (pages : list node) : list value :=
  flat_map screens_of_page pages.

(** The same selection on parsed JSON, for the general statement. *)
Definition children_of (page : value) : list value :=
  match iterate (Js.or (Js.get page "children") (VArr [])) with
  | Ok nodes => nodes
  | Throw _ => []
  end.

Definition page_screens (page : value) : list value :=
  if is_canvas page then map screen_of (filter is_screen (children_of page))
  else [].

(** The children of every canvas can be walked. *)
Definition walkable (pages : list value) : Prop :=
  Forall (fun page =>
            is_canvas page = true ->
            exists nodes,
              iterate (Js.or (Js.get page "children") (VArr [])) = Ok nodes)
         pages.

(** ** Vocabulary of the statements *)

(** A secret is configured and the caller's header carries exactly it. *)
Definition authorized (env : environment) (req : request) : Prop :=
  exists k, RELAY_KEY env = Some k /\ k <> "" /\ x_relay_key req = Some k.

(** The request passes every test that precedes the cache lookup, with
    file key [fileKey]. *)
Definition accepted (env : environment) (req : request) (fileKey : param)
  : Prop :=
  method req = "GET"
  /\ authorized env req
  /\ given (q_file_key req) = Some fileKey
  /\ depth_allowed (or_default (q_depth req) "1") = true
  /\ present (FIGMA_PAT env) <> None.

(** The cache key of the source. *)
Definition cache_key (fileKey : param) (depth : string) (limit : num)
  : string :=
  param_string fileKey ++ "|d=" ++ depth ++ "|l=" ++ num_to_string limit.

(** An [{id, name}] pair. *)
Definition is_pair (s : value) : Prop :=
  exists i n, s = VObj [("id", i); ("name", n)].

(** A payload as the handler composes it. *)
Definition is_payload (v : value) : Prop :=
  exists fileKey fileJson screens nodes,
    v = payload_of fileKey fileJson screens nodes
    /\ Forall is_pair screens
    /\ nodes <> VUndef.

(** The caches a process can hold: empty at start, then whatever a run of
    the handler leaves. *)
Inductive reachable : Cache -> Prop :=
| reachable_start : reachable []
| reachable_run (env : environment) (net : upstream) (now : Z)
    (req : request) (cache : Cache) :
    reachable cache ->
    reachable (cache_after (handler env net now req cache)).

Definition payload_keys : list string :=
  ["file_key"; "file_name"; "last_modified"; "screens"; "nodes"].

Definition markers : list string := ["hit"; "fallback_on_429"; "miss_set"].

(** [clamp(n, 1, 25)] *)
Definition clamp (n : Z) : Z := Z.min (Z.max n 1) 25.

(** What every reachable cache satisfies: a key occurs once and every
    stored value is a payload. *)
Definition cache_ok (c : Cache) : Prop :=
  CacheMap.wf c /\ Forall (fun kv => is_payload (stored (snd kv))) c.

(** The node-detail fetch failed: rate limited, another status outside
    2xx, or a body that does not parse. *)
Definition node_fetch_failed (resp : Response) : Prop :=
  r_status resp = 429 \/ r_ok resp = false \/ r_json resp = None.

(** ** Sample data *)

(** Two canvases: three frames and a rectangle, then two sections. *)
Definition two_canvases : list node :=
  [Node "CANVAS" "0:1" "Page 1"
     [Node "FRAME" "1:1" "Home" [];
      Node "FRAME" "1:2" "Login" [];
      Node "RECTANGLE" "1:3" "Backdrop" [];
      Node "FRAME" "1:4" "Settings" []];
   Node "CANVAS" "0:2" "Page 2"
     [Node "SECTION" "2:1" "Flows" [];
      Node "SECTION" "2:2" "Archive" []]].

Definition two_canvases_file : value :=
  file_of "Sample" "2024-01-01T00:00:00Z" two_canvases.

Definition screen (id name : string) : value :=
  VObj [("id", VStr id); ("name", VStr name)].

Definition env0 : environment := mkEnv (Some "s3cret") (Some "figd_token").

(** No relay secret configured. *)
Definition env_open : environment := mkEnv None (Some "figd_token").

Definition get_request (key : option string) (fileKey : string)
  (depth limit : option string) : request :=
  mkRequest "GET" key (Some (One fileKey)) (option_map One depth)
    (option_map One limit).

Definition json_answer (ms status : Z) (v : value) : answer :=
  mkAnswer ms
    (Resolved (mkResponse status (Some "application/json; charset=utf-8")
                 (Some v) None)).

(** A 2xx answer that announces JSON and carries a body that does not
    parse. *)
Definition broken_answer (ms : Z) : answer :=
  mkAnswer ms (Resolved (mkResponse 200 (Some "application/json") None None)).

Definition rate_limited (ms : Z) : answer :=
  json_answer ms 429 (VObj [("status", VNum 429);
                            ("err", VStr "Rate limit exceeded")]).

Definition not_found : answer :=
  json_answer 50 404 (VObj [("status", VNum 404); ("err", VStr "Not found")]).

(** An upstream given by a table of URLs. *)
Fixpoint table (rows : list (string * answer)) : upstream :=
  fun url =>
    match rows with
    | [] => not_found
    | (u, a) :: rest => if (url =? u)%string then a else table rest url
    end.

Definition frame (i : nat) : node :=
  Node "FRAME" ("1:" ++ Str.of_Z (Z.of_nat i))
       ("Screen " ++ Str.of_Z (Z.of_nat i)) [].

(** One canvas holding [n] frames. *)
Definition wide_file (n : nat) : value :=
  file_of "Wide" "2024-02-02T00:00:00Z"
    [Node "CANVAS" "0:1" "Page 1" (map frame (seq 1 n))].

Definition req0 : request := get_request (Some "s3cret") "FILE" None None.

Definition sample_nodes : value :=
  VObj [("name", VStr "Sample");
        ("nodes", VObj [("1:1", VObj [("document", VObj [("id", VStr "1:1")])]);
                        ("1:2", VObj [("document", VObj [("id", VStr "1:2")])])])].

(** The upstream serves the sample file and its nodes. *)
Definition net0 : upstream :=
  table [(file_url "FILE" "1", json_answer 120 200 two_canvases_file);
         (nodes_url "FILE" "1:1,1:2,1:4,2:1,2:2", json_answer 90 200 sample_nodes)].

Definition sample_payload : value :=
  payload_of "FILE" two_canvases_file
    [screen "1:1" "Home"; screen "1:2" "Login"] (VObj []).

(** One entry, stored at time 0 under the key of [req0]. *)
Definition old_cache : Cache := [("FILE|d=1|l=10", mkEntry 0 sample_payload)].

Definition not_found_everywhere : upstream := table [].

(** The upstream as the uncached handler addresses it (it does not encode
    the URL): the sample file, and a nodes answer that is 2xx with a body
    that does not parse. *)
Definition net_broken_nodes_plain : upstream :=
  table [(Enrich.file_url "FILE" "1", json_answer 120 200 two_canvases_file);
         (Enrich.nodes_url "FILE" "1:1,1:2,1:4,2:1,2:2", broken_answer 90)].

(** The same upstream as the caching handler addresses it. *)
Definition net_broken_nodes : upstream :=
  table [(file_url "FILE" "1", json_answer 120 200 two_canvases_file);
         (nodes_url "FILE" "1:1,1:2,1:4,2:1,2:2", broken_answer 90)].

(** Two entries for the file ["FILE"], under other parameters than those
    of [req0]; the first has expired by time 700000. *)
Definition other_variants : Cache :=
  [("FILE|d=2|l=5", mkEntry 0 sample_payload);
   ("OTHER|d=1|l=10", mkEntry 650000 (payload_of "OTHER" VNull [] (VObj [])));
   ("FILE|d=3|l=25", mkEntry 500000 sample_payload)].

Definition net_rate_limited : upstream :=
  table [(file_url "FILE" "1", rate_limited 80)].

(** The upstream knows the file ["abc|x"] and rate-limits the file
    ["abc"]. *)
Definition net_two_files : upstream :=
  table [(file_url "abc|x" "1", json_answer 120 200 two_canvases_file);
         (file_url "abc" "1", rate_limited 80)].

(** A 2xx file answer that is not JSON. *)
Definition net_html : upstream :=
  table [(file_url "FILE" "1",
          mkAnswer 100
            (Resolved (mkResponse 200 (Some "text/html") None
                         (Some "<html>maintenance</html>"))))].

(** A file without any page. *)
Definition empty_file : value := file_of "Empty" "2024-03-03T00:00:00Z" [].

Definition net_empty_file : upstream :=
  table [(file_url "FILE" "1", json_answer 70 200 empty_file)].

(** The file fetch is refused by the network. *)
Definition net_down : upstream :=
  fun _ => mkAnswer 30 (Rejected "fetch failed").

Definition net_server_error : upstream :=
  table [(file_url "FILE" "1",
          json_answer 40 503 (VObj [("err", VStr "Service unavailable")]))].

(** The limits the handler can work out: [NaN], or a number from 1 to
    25. *)
Definition valid_limit (l : num) : Prop :=
  l = NaN \/ exists z, l = Int z /\ 1 <= z <= 25.

Definition all_limits : list num :=
  NaN :: map (fun n => Int (Z.of_nat n)) (seq 1 25).

Definition num_eqb (a b : num) : bool :=
  match a, b with
  | NaN, NaN => true
  | Int x, Int y => x =? y
  | _, _ => false
  end.

(** The string holds a bar. *)
Fixpoint has_bar (s : string) : bool :=
  match s with
  | EmptyString => false
  | String c rest => (c =? "|")%char || has_bar rest
  end.

(** The entry sits under the cache key of the file its payload is for,
    with an allowed depth and a limit the handler can work out, and its
    payload has no more screens than a numeric limit allows. *)
Definition keyed (kv : string * entry) : Prop :=
  exists fileKey depth limit fileJson screens nodes,
    fst kv = cache_key fileKey depth limit
    /\ depth_allowed depth = true
    /\ valid_limit limit
    /\ stored (snd kv) = payload_of fileKey fileJson screens nodes
    /\ (forall z, limit = Int z -> Z.of_nat (List.length screens) <= z).

(** The value is not [undefined]. *)
Definition defined (v : value) : bool :=
  match v with
  | VUndef => false
  | _ => true
  end.

(** What [res.json(v)] sends, as the caller reads it back:
    [JSON.stringify] leaves out every property whose value is
    [undefined] and writes [null] for an [undefined] array item. *)
Fixpoint on_wire (v : value) : value :=
  match v with
  | VObj fields =>
      VObj ((fix props (l : list (string * value)) : list (string * value) :=
               match l with
               | [] => []
               | (k, x) :: rest =>
                   if defined x then (k, on_wire x) :: props rest
                   else props rest
               end) fields)
  | VArr items =>
      VArr (map (fun x => if defined x then on_wire x else VNull) items)
  | _ => v
  end.

(** A screen as it goes out: an object with no other property than [id]
    and [name], each there when the node had it. *)
Definition pair_on_wire (s : value) : Prop :=
  exists fields, s = VObj fields /\ incl (map fst fields) ["id"; "name"].

(** * Properties *)

(** ** Screen selection *)

Section Selection.

Variable limit : Z.
Hypothesis limit_pos : 1 <= limit.

Lemma firstn_exact {A : Type} (acc rest : list A) (x : A) :
  firstn (S (List.length acc)) (acc ++ x :: rest) = (acc ++ [x])%list.
Proof.
  induction acc as [|a acc IH]; simpl.
  - reflexivity.
  - f_equal. exact IH.
Qed.

(** The inner loop on an accumulator that is still below the limit. *)
Lemma scan_nodes_spec (nodes acc : list value) :
  Z.of_nat (List.length acc) < limit ->
  scan_nodes (Int limit) nodes acc =
    let all := (acc ++ map screen_of (filter is_screen nodes))%list in
    if limit <=? Z.of_nat (List.length all)
    then Return (firstn (Z.to_nat limit) all)
    else Next all.
Proof.
  revert acc.
  induction nodes as [|n rest IH]; intros acc Hacc; cbn [scan_nodes filter map].
  - rewrite app_nil_r. cbv zeta.
    destruct (Z.leb_spec limit (Z.of_nat (List.length acc))); [lia | reflexivity].
  - destruct (is_screen n) eqn:Hn; cbn [map].
    + cbn [ge_num]. rewrite length_app. cbn [List.length].
      destruct (Z.leb_spec limit (Z.of_nat (List.length acc + 1))) as [Hge|Hlt].
      * cbv zeta. rewrite length_app. cbn [List.length].
        destruct (Z.leb_spec limit
                    (Z.of_nat (List.length acc
                               + S (List.length (map screen_of (filter is_screen rest))))));
          [|lia].
        replace (Z.to_nat limit) with (S (List.length acc)) by lia.
        now rewrite firstn_exact.
      * rewrite IH by (rewrite length_app; cbn [List.length]; lia).
        cbv zeta. now rewrite <- app_assoc.
    + now apply IH.
Qed.



End Selection.

(** ** Selection on well-formed document trees *)

Lemma is_screen_to_value (n : node) : is_screen (to_value n) = qualifies n.
Proof. destruct n; reflexivity. Qed.

Lemma screen_of_to_value (n : node) : screen_of (to_value n) = pair_of n.
Proof. destruct n; reflexivity. Qed.

Lemma is_canvas_to_value (p : node) :
  is_canvas (to_value p) = (node_type p =? "CANVAS")%string.
Proof. destruct p; reflexivity. Qed.

Lemma iterate_children_to_value (p : node) :
  iterate (Js.or (Js.get (to_value p) "children") (VArr []))
    = Ok (map to_value (node_children p)).
Proof. destruct p; reflexivity. Qed.

Lemma selected_to_value (nodes : list node) :
  map screen_of (filter is_screen (map to_value nodes))
    = map pair_of (filter qualifies nodes).
Proof.
  induction nodes as [|n rest IH]; cbn [map filter].
  - reflexivity.
  - rewrite is_screen_to_value. destruct (qualifies n); cbn [map].
    + now rewrite screen_of_to_value, IH.
    + exact IH.
Qed.

Lemma page_screens_to_value (p : node) :
  page_screens (to_value p) = screens_of_page p.
Proof.
  unfold page_screens, screens_of_page, children_of.
  rewrite is_canvas_to_value, iterate_children_to_value.
  destruct (node_type p =? "CANVAS")%string; [apply selected_to_value | reflexivity].
Qed.

Lemma flat_map_to_value (pages : list node) :
  flat_map page_screens (map to_value pages) = all_screens pages.
Proof.
  unfold all_screens.
  induction pages as [|p rest IH]; cbn [map flat_map].
  - reflexivity.
  - now rewrite page_screens_to_value, IH.
Qed.

Lemma walkable_to_value (pages : list node) : walkable (map to_value pages).
Proof.
  unfold walkable. apply Forall_forall. intros page Hin _.
  apply in_map_iff in Hin. destruct Hin as [p [<- _]].
  eexists. apply iterate_children_to_value.
Qed.


Section EnrichSelection.

Variable limit : Z.
Hypothesis limit_pos : 1 <= limit.



End EnrichSelection.



(** ** The checks before the cache lookup *)

Lemma present_some (x : option string) (s : string) :
  present x = Some s <-> x = Some s /\ s <> "".
Proof.
  unfold present. destruct x as [t|].
  - destruct (String.eqb_spec t ""); split.
    + discriminate.
    + intros [[= ->] Hne]. contradiction.
    + intros [= ->]. now split.
    + now intros [[= ->] _].
  - split; [discriminate | now intros [? _]].
Qed.

Lemma given_some (x : option param) (p : param) :
  given x = Some p <-> x = Some p /\ p <> One "".
Proof.
  unfold given. destruct x as [[t|items]|].
  - destruct (String.eqb_spec t ""); split.
    + discriminate.
    + intros [[= <-] Hne]. subst. contradiction.
    + intros [= <-]. split; [reflexivity | congruence].
    + now intros [[= <-] _].
  - split; [intros [= <-]; split; [reflexivity | discriminate]
           | now intros [[= <-] _]].
  - split; [discriminate | now intros [? _]].
Qed.

(** The test of the handler lets through exactly the authorized
    requests. *)
Lemma guard_authorized (env : environment) (req : request) :
  (match present (RELAY_KEY env) with None => true | Some _ => false end
   || negb (same (x_relay_key req) (RELAY_KEY env))) = false
  <-> authorized env req.
Proof.
  unfold authorized. split.
  - intros H. apply orb_false_iff in H. destruct H as [Hcfg Hsame].
    destruct (present (RELAY_KEY env)) as [k|] eqn:Hk; [|discriminate].
    apply present_some in Hk. destruct Hk as [Hk Hne].
    exists k. repeat split; trivial.
    rewrite Hk in Hsame. apply negb_false_iff in Hsame.
    unfold same in Hsame. destruct (x_relay_key req) as [h|]; [|discriminate].
    apply String.eqb_eq in Hsame. now subst.
  - intros [k [Hk [Hne Hh]]].
    assert (Hp : present (RELAY_KEY env) = Some k) by now apply present_some.
    rewrite Hp, Hk, Hh. cbn. now rewrite String.eqb_refl.
Qed.

Lemma guard_unauthorized (env : environment) (req : request) :
  ~ authorized env req ->
  (match present (RELAY_KEY env) with None => true | Some _ => false end
   || negb (same (x_relay_key req) (RELAY_KEY env))) = true.
Proof.
  intros Hno. apply not_false_is_true. intros H.
  now apply Hno, guard_authorized.
Qed.

(** An accepted request reaches [serve]. *)
Lemma handler_accepted (env : environment) (net : upstream) (now : Z)
  (req : request) (cache : Cache) (fileKey : param) :
  accepted env req fileKey ->
  handler env net now req cache
  = serve net now fileKey (or_default (q_depth req) "1")
      (effective_limit (q_limit req)) cache.
Proof.
  intros [Hget [Hauth [Hkey [Hdepth Hpat]]]].
  unfold handler.
  rewrite Hget. cbn [String.eqb Ascii.eqb Bool.eqb negb andb].
  apply guard_authorized in Hauth. rewrite Hauth.
  rewrite Hkey, Hdepth. cbn [negb].
  destruct (present (FIGMA_PAT env)); [reflexivity | contradiction].
Qed.

(** Whatever [serve] does after a miss starts with the file fetch. *)
Lemma serve_miss_fetches (net : upstream) (now : Z) (fileKey : param)
  (depth : string)
  (limit : num) (cache : Cache) :
  Js.truthy (or_null (fst (getCache (cache_key fileKey depth limit) now cache)))
    = false ->
  exists rest,
    calls (serve net now fileKey depth limit cache)
    = file_url fileKey depth :: rest.
Proof.
  intros Hmiss. unfold serve. fold (cache_key fileKey depth limit).
  destruct (getCache (cache_key fileKey depth limit) now cache)
    as [cached cache1].
  cbn [fst] in Hmiss. rewrite Hmiss.
  destruct (fetchJson net (file_url fileKey depth)) as [fileRes|m];
    [|eexists; reflexivity].
  destruct (status fileRes =? 429).
  { destruct (find _ cache1) as [[k v]|]; eexists; reflexivity. }
  destruct (negb (ok fileRes) || negb (Js.truthy (json fileRes)));
    [eexists; reflexivity|].
  destruct (pickTopScreens (json fileRes) limit) as [screens|m];
    [|eexists; reflexivity].
  destruct (Js.join (map (fun s => Js.get s "id") screens) =? "")%string;
    [eexists; reflexivity|].
  destruct (fetchJson net _); eexists; reflexivity.
Qed.

(** ** The cache *)

(** C7. [getCache] returns the stored payload exactly when the cache has
    an entry for that very key whose age, the time of the lookup minus
    the stored timestamp, is at most the TTL of ten minutes (600000 ms);
    in every other case it returns [null].  Hence an accepted request
    whose cache key has an entry older than the TTL fetches the file from
    the upstream again. *)
Theorem cache_get_ttl (key : string) (now : Z) (cache : Cache) :
  TTL_MS = 600000
  /\ (forall v,
        fst (getCache key now cache) = Some v
        <-> exists e, CacheMap.get key cache = Some e
                      /\ now - ts e <= TTL_MS /\ stored e = v)
  /\ (fst (getCache key now cache) = None
      <-> forall e, CacheMap.get key cache = Some e -> TTL_MS < now - ts e)
  /\ (forall env net req fileKey e,
        accepted env req fileKey ->
        key = cache_key fileKey (or_default (q_depth req) "1")
                (effective_limit (q_limit req)) ->
        CacheMap.get key cache = Some e ->
        TTL_MS < now - ts e ->
        exists rest,
          calls (handler env net now req cache)
          = file_url fileKey (or_default (q_depth req) "1") :: rest).
Proof.
  assert (Hnone : fst (getCache key now cache) = None
                  <-> forall e, CacheMap.get key cache = Some e ->
                                TTL_MS < now - ts e).
  { unfold getCache. destruct (CacheMap.get key cache) as [item|].
    - destruct (Z.gtb_spec (now - ts item) TTL_MS) as [Hgt|Hle]; cbn [fst]; split.
      + now intros _ e [= <-].
      + reflexivity.
      + discriminate.
      + intros H. specialize (H item eq_refl). lia.
    - cbn [fst]. split; [discriminate | reflexivity]. }
  split; [reflexivity|]. split; [|split; [exact Hnone|]].
  - intros v. unfold getCache.
    destruct (CacheMap.get key cache) as [item|].
    + destruct (Z.gtb_spec (now - ts item) TTL_MS) as [Hgt|Hle]; cbn [fst]; split.
      * discriminate.
      * intros [e [[= <-] [Hage _]]]. lia.
      * intros [= <-]. exists item. repeat split; trivial; lia.
      * now intros [e [[= <-] [_ <-]]].
    + cbn [fst]. split; [discriminate | now intros [e [? _]]].
  - intros env net req fileKey e Hadm -> Hget Hold.
    rewrite (handler_accepted env net now req cache fileKey Hadm).
    apply serve_miss_fetches.
    replace (fst (getCache _ now cache)) with (@None value); [reflexivity|].
    symmetry. apply Hnone. intros e' He'. rewrite Hget in He'.
    now injection He' as <-.
Qed.

Lemma accepted_req0 : accepted env0 req0 "FILE".
Proof.
  repeat split; try reflexivity.
  - exists "s3cret". repeat split; [discriminate].
  - discriminate.
Qed.

Lemma cache_get_ttl_witness :
  exists rest,
    calls (handler env0 net0 600001 req0 old_cache)
    = file_url "FILE" "1" :: rest.
Proof.
  destruct (cache_get_ttl "FILE|d=1|l=10" 600001 old_cache) as [_ [_ [_ H]]].
  apply (H env0 net0 req0 "FILE" (mkEntry 0 sample_payload)).
  - exact accepted_req0.
  - reflexivity.
  - reflexivity.
  - vm_compute. reflexivity.
Defined.

(** ** Authorization *)

Lemma authorized_dec (env : environment) (req : request) :
  authorized env req \/ ~ authorized env req.
Proof.
  destruct (match present (RELAY_KEY env) with None => true | Some _ => false end
            || negb (same (x_relay_key req) (RELAY_KEY env))) eqn:H.
  - right. intros Ha. apply guard_authorized in Ha. congruence.
  - left. now apply guard_authorized.
Qed.

(** C1, as stated, fails on a request that is not a GET: the method is
    tested first, so a POST without the relay key is answered 405. *)
Lemma unauthorized_post_is_405 :
  let req := mkRequest "POST" None (Some (One "FILE")) None None in
  ~ authorized env0 req
  /\ code (answered (handler env0 net0 0 req [])) = 405
  /\ code (answered (handler env0 net0 0 req [])) <> 401.
Proof.
  cbv zeta. split; [|split].
  - intros [k [_ [_ H]]]. discriminate H.
  - reflexivity.
  - discriminate.
Qed.

(** C1, amended.  A request that is not authorized (no secret configured,
    or the header missing, or the header different from the secret) never
    reaches the upstream and leaves the cache alone; if it is a GET the
    answer is 401, otherwise 405.  The handler fetches only for an
    authorized request: a secret is configured and the header equals it.
    The uncached handler answers 401, without fetching, every GET whose
    header differs from the configured secret. *)
Theorem relay_key_check (env : environment) (net : upstream) (now : Z)
  (req : request) (cache : Cache) :
  (~ authorized env req ->
   calls (handler env net now req cache) = []
   /\ cache_after (handler env net now req cache) = cache
   /\ (method req = "GET" ->
       answered (handler env net now req cache)
       = mkReply 401 (VObj [("error", VStr "Unauthorized")]))
   /\ (method req <> "GET" ->
       code (answered (handler env net now req cache)) = 405))
  /\ (calls (handler env net now req cache) <> [] -> authorized env req)
  /\ (code (answered (handler env net now req cache)) = 200 ->
      authorized env req)
  /\ (method req = "GET" ->
      same (x_relay_key req) (RELAY_KEY env) = false ->
      Enrich.handler env net req
      = (mkReply 401 (VObj [("error", VStr "Unauthorized")]), [])).
Proof.
  assert (Hno : ~ authorized env req ->
                calls (handler env net now req cache) = []
                /\ cache_after (handler env net now req cache) = cache
                /\ (method req = "GET" ->
                    answered (handler env net now req cache)
                    = mkReply 401 (VObj [("error", VStr "Unauthorized")]))
                /\ (method req <> "GET" ->
                    code (answered (handler env net now req cache)) = 405)).
  { intros Hno. apply guard_unauthorized in Hno. unfold handler.
    destruct (String.eqb_spec (method req) "GET") as [Hm|Hm]; cbn [negb].
    - rewrite Hno. cbn. repeat split; trivial. now intros.
    - cbn. repeat split; trivial. now intros. }
  split; [exact Hno|]. split; [|split].
  - intros Hcalls. destruct (authorized_dec env req) as [Ha|Ha]; [exact Ha|].
    destruct (Hno Ha) as [Hnil _]. contradiction.
  - intros Hcode. destruct (authorized_dec env req) as [Ha|Ha]; [exact Ha|].
    destruct (Hno Ha) as [_ [_ [H401 H405]]].
    destruct (String.eqb_spec (method req) "GET") as [Hm|Hm].
    + rewrite (H401 Hm) in Hcode. discriminate.
    + rewrite (H405 Hm) in Hcode. discriminate.
  - intros Hm Hdiff. unfold Enrich.handler.
    rewrite Hm, Hdiff. reflexivity.
Qed.

Lemma relay_key_check_witness :
  let req := get_request (Some "guess") "FILE" None None in
  answered (handler env0 net0 0 req [])
  = mkReply 401 (VObj [("error", VStr "Unauthorized")])
  /\ calls (handler env0 net0 0 req []) = [].
Proof.
  cbv zeta.
  destruct (relay_key_check env0 net0 0
              (get_request (Some "guess") "FILE" None None) [])
    as [H _].
  destruct H as [Hcalls [_ [H401 _]]].
  - intros [k [Hk [_ Hh]]]. cbn in Hk, Hh. congruence.
  - split; [apply H401; reflexivity | exact Hcalls].
Defined.

(** Where the uncached handler parts from C1: with no secret configured
    and no header sent, its comparison of the two [undefined] values lets
    the request through to the upstream. *)
Lemma enrich_open_without_secret :
  let req := get_request None "FILE" None None in
  ~ authorized env_open req
  /\ code (fst (Enrich.handler env_open not_found_everywhere req)) = 404
  /\ snd (Enrich.handler env_open not_found_everywhere req)
     = [Enrich.file_url "FILE" "1"].
Proof.
  cbv zeta. split; [|split].
  - intros [k [Hk _]]. discriminate Hk.
  - reflexivity.
  - reflexivity.
Qed.

(** ** The limit *)

(** Whenever [parseInt] finds a number, the effective limit is that number
    clamped into 1..25; an absent or empty parameter counts as 10. *)
Lemma limit_clamped (q : option param) (n : Z) :
  ParseInt.parseInt (or_default q "10") = Int n ->
  effective_limit q = Int (clamp n) /\ 1 <= clamp n <= 25.
Proof.
  intros H. unfold effective_limit, clamp. rewrite H. cbn. split; [reflexivity | lia].
Qed.

Lemma limit_default : effective_limit None = Int 10 /\ effective_limit (Some (One "")) = Int 10.
Proof. split; reflexivity. Qed.

Lemma limit_samples :
  effective_limit (Some (One "0")) = Int 1
  /\ effective_limit (Some (One "-4")) = Int 1
  /\ effective_limit (Some (One "7")) = Int 7
  /\ effective_limit (Some (One "25")) = Int 25
  /\ effective_limit (Some (One "1000")) = Int 25
  /\ effective_limit (Some (One "12.9")) = Int 12.
Proof. repeat split; reflexivity. Qed.

(** The only other outcome: [parseInt] finds no number and the limit is
    [NaN]. *)
Lemma limit_nan (q : option param) :
  ParseInt.parseInt (or_default q "10") = NaN -> effective_limit q = NaN.
Proof. intros H. unfold effective_limit. now rewrite H. Qed.

(** C2 on a limit that is not a number.  [parseInt] gives [NaN], which
    [Math.max] and [Math.min] hand on, so the effective limit is [NaN]
    and not a number between 1 and 25: the selection never stops, a file
    with 30 frames yields 30 screens, and the payload is cached under a
    key that ends in [l=NaN].  The uncached handler, which has no lower
    bound, keeps 0 and negative limits as they are. *)
Theorem limit_not_a_number :
  let req := get_request (Some "s3cret") "FILE" None (Some "abc") in
  let net := table [(file_url "FILE" "1", json_answer 120 200 (wide_file 30))] in
  let out := handler env0 net 0 req [] in
  effective_limit (q_limit req) = NaN
  /\ code (answered out) = 200
  /\ (exists screens,
        Js.get (body (answered out)) "screens" = VArr screens
        /\ List.length screens = 30%nat)
  /\ map fst (cache_after out) = ["FILE|d=1|l=NaN"]
  /\ Enrich.effective_limit (Some (One "abc")) = NaN
  /\ Enrich.effective_limit (Some (One "0")) = Int 0
  /\ Enrich.effective_limit (Some (One "-3")) = Int (-3).
Proof.
  cbv zeta. split; [reflexivity|]. split; [vm_compute; reflexivity|].
  split; [|repeat split; vm_compute; reflexivity].
  eexists. split; vm_compute; reflexivity.
Qed.

(** ** The depth *)

(** C8, as stated, fails on a depth that is present and empty: [||]
    replaces the empty string by ["1"], and the request goes on to the
    upstream instead of being answered 400. *)
Lemma empty_depth_is_not_400 :
  let req := get_request (Some "s3cret") "FILE" (Some "") None in
  q_depth req = Some (One "")
  /\ ~ In "" ["1"; "2"; "3"]
  /\ code (answered (handler env0 net0 0 req [])) = 200
  /\ calls (handler env0 net0 0 req [])
     = [file_url "FILE" "1"; nodes_url "FILE" "1:1,1:2,1:4,2:1,2:2"].
Proof.
  cbv zeta. split; [reflexivity|]. split.
  - cbn. intros [H|[H|[H|[]]]]; discriminate H.
  - split; vm_compute; reflexivity.
Qed.

Lemma depth_allowed_in (d : string) :
  depth_allowed d = true <-> In d ["1"; "2"; "3"].
Proof.
  unfold depth_allowed. rewrite existsb_exists. split.
  - intros [x [Hin Heq]]. apply String.eqb_eq in Heq. now subst.
  - intros Hin. exists d. split; [exact Hin | apply String.eqb_refl].
Qed.

(** C8, amended.  For every authorized GET request whose depth parameter
    is a non-empty string (or a repeated parameter, which reads as its
    values joined by commas) other than ["1"], ["2"] and ["3"], the handler
    answers 400 without any upstream call and without touching the cache.
    When the parameter is absent or empty the depth is ["1"]: an accepted
    request is then served with depth ["1"], and the uncached handler,
    which does not validate the depth, fetches the file with depth
    ["1"]. *)
Theorem depth_check (env : environment) (net : upstream) (now : Z)
  (req : request) (cache : Cache)
  (Hget : method req = "GET") (Hauth : authorized env req) :
  (forall d : param,
     q_depth req = Some d -> d <> One "" ->
     ~ In (param_string d) ["1"; "2"; "3"] ->
             code (answered (handler env net now req cache)) = 400
             /\ calls (handler env net now req cache) = []
             /\ cache_after (handler env net now req cache) = cache)
  /\ (given (q_depth req) = None ->
      or_default (q_depth req) "1" = "1"
      /\ (forall fileKey, accepted env req fileKey ->
            handler env net now req cache
            = serve net now fileKey "1" (effective_limit (q_limit req)) cache)
      /\ (forall fileKey, given (q_file_key req) = Some fileKey ->
            exists rest,
              snd (Enrich.handler env net req)
              = Enrich.file_url fileKey "1" :: rest)).
Proof.
  split.
  - intros d Hd Hne Hout.
    assert (Hdepth : depth_allowed (or_default (q_depth req) "1") = false).
    { unfold or_default.
      replace (given (q_depth req)) with (Some d)
        by (symmetry; now apply given_some).
      apply not_true_is_false. now rewrite depth_allowed_in. }
    unfold handler. rewrite Hget.
    cbn [String.eqb Ascii.eqb Bool.eqb negb andb].
    apply guard_authorized in Hauth. rewrite Hauth, Hdepth.
    destruct (given (q_file_key req)); cbn; repeat split; reflexivity.
  - intros Habsent.
    assert (Hone : or_default (q_depth req) "1" = "1")
      by (unfold or_default; now rewrite Habsent).
    split; [exact Hone|]. split.
    + intros fileKey Hadm.
      rewrite (handler_accepted env net now req cache fileKey Hadm).
      now rewrite Hone.
    + intros fileKey Hkey. unfold Enrich.handler.
      rewrite Hget. cbn [String.eqb Ascii.eqb Bool.eqb negb andb].
      destruct Hauth as [k [Hk [_ Hh]]]. rewrite Hk, Hh.
      cbn [same]. rewrite String.eqb_refl. cbn [negb].
      rewrite Hkey, Hone.
      destruct (settled (net (Enrich.file_url fileKey "1"))) as [m|resp];
        [eexists; reflexivity|].
      destruct (negb (r_ok resp)); [eexists; reflexivity|].
      destruct (bind (Enrich.read_json resp) _) as [[fileJson screens]|m];
        [|eexists; reflexivity].
      destruct (Js.join _ =? "")%string; [eexists; reflexivity|].
      destruct (settled (net _)) as [m|nodesResp]; [eexists; reflexivity|].
      destruct (r_ok nodesResp); [|eexists; reflexivity].
      destruct (bind (Enrich.read_json nodesResp) _); eexists; reflexivity.
Qed.

Lemma depth_check_witness :
  let req := get_request (Some "s3cret") "FILE" (Some "4") None in
  code (answered (handler env0 net0 0 req [])) = 400
  /\ calls (handler env0 net0 0 req []) = [].
Proof.
  cbv zeta.
  assert (Hauth : authorized env0
                    (get_request (Some "s3cret") "FILE" (Some "4") None)).
  { exists "s3cret". repeat split; [discriminate]. }
  destruct (depth_check env0 net0 0
              (get_request (Some "s3cret") "FILE" (Some "4") None) []
              eq_refl Hauth) as [H _].
  destruct (H "4" eq_refl) as [Hcode [Hcalls _]].
  - discriminate.
  - cbn. intros [E|[E|[E|[]]]]; discriminate E.
  - split; [exact Hcode | exact Hcalls].
Defined.

(** ** What the cache holds *)

Lemma scan_nodes_pairs (limit : num) (nodes acc : list value) :
  Forall is_pair acc ->
  match scan_nodes limit nodes acc with
  | Next s | Return s => Forall is_pair s
  end.
Proof.
  revert acc. induction nodes as [|n rest IH]; intros acc Hacc; cbn [scan_nodes].
  - exact Hacc.
  - destruct (is_screen n); [|now apply IH].
    assert (Hacc' : Forall is_pair (acc ++ [screen_of n])).
    { apply Forall_app. split; [exact Hacc|].
      constructor; [|constructor]. unfold is_pair, screen_of. eauto. }
    destruct (ge_num _ limit); [exact Hacc' | now apply IH].
Qed.

Lemma scan_pages_pairs (limit : num) (pages acc screens : list value) :
  Forall is_pair acc ->
  scan_pages limit pages acc = Ok screens ->
  Forall is_pair screens.
Proof.
  revert acc. induction pages as [|p rest IH]; intros acc Hacc; cbn [scan_pages].
  - now intros [= <-].
  - destruct (is_canvas p); cbn [negb]; [|now apply IH].
    destruct (iterate _) as [nodes|m]; cbn [bind]; [|discriminate].
    pose proof (scan_nodes_pairs limit nodes acc Hacc) as Hn.
    destruct (scan_nodes limit nodes acc) as [s|s].
    + now apply IH.
    + now intros [= <-].
Qed.

Lemma pickTopScreens_pairs (fileJson : value) (limit : num)
  (screens : list value) :
  pickTopScreens fileJson limit = Ok screens -> Forall is_pair screens.
Proof.
  unfold pickTopScreens. destruct (iterate _) as [pages|m]; cbn [bind];
    [|discriminate].
  apply scan_pages_pairs. constructor.
Qed.

Lemma delete_ok (key : string) (c : Cache) :
  cache_ok c -> cache_ok (CacheMap.delete key c).
Proof.
  unfold cache_ok, CacheMap.wf, CacheMap.delete. intros [Hwf Hpay].
  induction c as [|[k e] rest IH]; cbn [filter map fst].
  - split; constructor.
  - inversion Hwf as [|? ? Hnotin Hwf']; subst.
    inversion Hpay as [|? ? He Hpay']; subst.
    destruct (IH Hwf' Hpay') as [IHwf IHpay].
    destruct (negb (key =? k)%string); [|now split].
    split; constructor; trivial.
    intros Hin. apply Hnotin. apply in_map_iff in Hin.
    destruct Hin as [[k' e'] [Hk Hin]]. apply filter_In in Hin.
    apply in_map_iff. exists (k', e'). now split.
Qed.

Lemma set_keys (key : string) (e : entry) (c : Cache) (k : string) :
  In k (map fst (CacheMap.set key e c)) -> k = key \/ In k (map fst c).
Proof.
  induction c as [|[k' e'] rest IH]; cbn [CacheMap.set map fst].
  - cbn. intros [H|[]]. now left.
  - destruct (String.eqb_spec key k'); cbn [map fst In].
    + intros [H|H]; [right; now left | right; now right].
    + intros [H|H]; [right; now left|].
      destruct (IH H); [now left | right; now right].
Qed.

Lemma set_ok (key : string) (e : entry) (c : Cache) :
  is_payload (stored e) -> cache_ok c -> cache_ok (CacheMap.set key e c).
Proof.
  unfold cache_ok, CacheMap.wf. intros He [Hwf Hpay].
  induction c as [|[k e'] rest IH]; cbn [CacheMap.set].
  - split; repeat constructor; trivial. intros [].
  - inversion Hwf as [|? ? Hnotin Hwf']; subst.
    inversion Hpay as [|? ? He' Hpay']; subst.
    destruct (String.eqb_spec key k) as [->|Hne].
    + split; constructor; trivial.
    + destruct (IH Hwf' Hpay') as [IHwf IHpay].
      split; constructor; trivial.
      cbn [fst]. intros Hin. apply set_keys in Hin.
      destruct Hin as [Hin|Hin]; [now subst | contradiction].
Qed.

Lemma getCache_ok (key : string) (now : Z) (c : Cache) :
  cache_ok c -> cache_ok (snd (getCache key now c)).
Proof.
  intros Hc. unfold getCache. destruct (CacheMap.get key c) as [item|];
    [|exact Hc].
  destruct (now - ts item >? TTL_MS); [now apply delete_ok | exact Hc].
Qed.

Lemma payload_of_is_payload (fileKey : param) (fileJson : value)
  (screens : list value) (nodes : value) :
  Forall is_pair screens ->
  nodes <> VUndef ->
  is_payload (payload_of fileKey fileJson screens nodes).
Proof. intros H Hn. unfold is_payload. eauto 8. Qed.

Lemma or_defined (a b : value) : b <> VUndef -> Js.or a b <> VUndef.
Proof.
  intros Hb. unfold Js.or. destruct (Js.truthy a) eqn:Ha; [|exact Hb].
  intros ->. discriminate Ha.
Qed.

(** Whatever the node-detail fetch gave, [nodes] is an object or a truthy
    value, never [undefined]. *)
Lemma nodes_defined (nodesRes : FetchResult) :
  (if status nodesRes =? 429 then VObj []
   else if ok nodesRes && Js.truthy (json nodesRes)
        then Js.or (Js.get (json nodesRes) "nodes") (VObj [])
        else VObj []) <> VUndef.
Proof.
  destruct (status nodesRes =? 429); [discriminate|].
  destruct (ok nodesRes && Js.truthy (json nodesRes)); [|discriminate].
  apply or_defined. discriminate.
Qed.

(** Walks through [serve], one case per way out of it. *)
Ltac serve_paths :=
  unfold serve;
  match goal with
  | |- context [getCache ?k ?t ?c] =>
      destruct (getCache k t c) as [cached cache1] eqn:Hlook
  end;
  match goal with
  | |- context [Js.truthy (or_null ?v)] =>
      destruct (Js.truthy (or_null v)) eqn:Hhit
  end;
  [ | match goal with
      | |- context [fetchJson ?n ?u] =>
          destruct (fetchJson n u) as [fileRes|m] eqn:Hfile
      end;
      [ match goal with
        | |- context [status ?r =? 429] =>
            destruct (status r =? 429) eqn:H429
        end;
        [ match goal with
          | |- context [find ?f ?c] =>
              destruct (find f c) as [[fk fv]|] eqn:Hfind
          end
        | match goal with
          | |- context [negb (ok ?r) || ?b] =>
              destruct (negb (ok r) || b) eqn:Hbad
          end;
          [ | match goal with
              | |- context [pickTopScreens ?j ?l] =>
                  destruct (pickTopScreens j l) as [screens|m] eqn:Hpick
              end;
              [ match goal with
                | |- context [(?ids =? "")%string] =>
                    destruct (ids =? "")%string eqn:Hids
                end;
                [ | match goal with
                    | |- context [fetchJson ?n ?u] =>
                        destruct (fetchJson n u) as [nodesRes|m] eqn:Hnodes
                    end ]
              | ] ] ]
      | ] ];
  cbn [answered cache_after calls code body].

Lemma serve_ok (net : upstream) (now : Z) (fileKey : param) (depth : string)
  (limit : num) (cache : Cache) :
  cache_ok cache -> cache_ok (cache_after (serve net now fileKey depth limit cache)).
Proof.
  intros Hc.
  assert (H1 : forall key, cache_ok (snd (getCache key now cache)))
    by (intros; now apply getCache_ok).
  serve_paths;
    match type of Hlook with
    | getCache ?k _ _ = _ => specialize (H1 k); rewrite Hlook in H1
    end; cbn [snd] in H1; trivial;
    apply set_ok; trivial; cbn [stored];
    (apply payload_of_is_payload;
     [eapply pickTopScreens_pairs; eassumption
     | first [discriminate | apply nodes_defined]]).
Qed.

Lemma handler_ok (env : environment) (net : upstream) (now : Z)
  (req : request) (cache : Cache) :
  cache_ok cache -> cache_ok (cache_after (handler env net now req cache)).
Proof.
  intros Hc. unfold handler.
  destruct (negb (method req =? "GET")%string); [exact Hc|].
  destruct (_ || _); [exact Hc|].
  destruct (given (q_file_key req)); [|exact Hc].
  destruct (negb (depth_allowed _)); [exact Hc|].
  destruct (present (FIGMA_PAT env)); [|exact Hc].
  now apply serve_ok.
Qed.

(** Every cache a process can hold is well formed and holds payloads
    only. *)
Lemma reachable_ok (cache : Cache) : reachable cache -> cache_ok cache.
Proof.
  induction 1 as [|env net now req cache _ IH].
  - split; constructor.
  - now apply handler_ok.
Qed.

(** ** Degrading when the node-detail fetch fails *)

Lemma fetchJson_resolved (net : upstream) (url : string) (resp : Response) :
  settled (net url) = Resolved resp ->
  exists res,
    fetchJson net url = Ok res
    /\ ok res = r_ok resp
    /\ status res = r_status resp
    /\ (r_json resp = None -> json res = VNull).
Proof.
  intros H. unfold fetchJson. rewrite H. eexists. split; [reflexivity|].
  cbn [ok status json]. repeat split.
  intros ->. now destruct (Str.includes _ _).
Qed.

(** In the caching handler every failure of the node-detail fetch leaves
    [nodes] empty, and the request is answered 200 all the same.  The
    premises say that the request got as far as the node-detail fetch:
    it was accepted, missed the cache, the file came back 2xx with JSON,
    the selection returned screens and their ids are not all empty. *)
Lemma node_fetch_degrades (env : environment) (net : upstream) (now : Z)
  (req : request) (cache : Cache) (fileKey : param)
  (fileRes : FetchResult) (screens : list value) (resp : Response) :
  let depth := or_default (q_depth req) "1" in
  let limit := effective_limit (q_limit req) in
  let ids := Js.join (map (fun s => Js.get s "id") screens) in
  let out := handler env net now req cache in
  accepted env req fileKey ->
  Js.truthy (or_null (fst (getCache (cache_key fileKey depth limit) now cache)))
    = false ->
  fetchJson net (file_url fileKey depth) = Ok fileRes ->
  status fileRes <> 429 ->
  ok fileRes = true ->
  Js.truthy (json fileRes) = true ->
  pickTopScreens (json fileRes) limit = Ok screens ->
  ids <> "" ->
  settled (net (nodes_url fileKey ids)) = Resolved resp ->
  node_fetch_failed resp ->
  code (answered out) = 200
  /\ body (answered out)
     = with_marker (payload_of fileKey (json fileRes) screens (VObj []))
         "miss_set"
  /\ Js.get (body (answered out)) "nodes" = VObj []
  /\ calls out = [file_url fileKey depth; nodes_url fileKey ids].
Proof.
  intros depth limit ids out Hadm Hmiss Hfile H429 Hok Hjson Hpick Hids
    Hnodes Hfail.
  unfold out. rewrite (handler_accepted env net now req cache fileKey Hadm).
  fold depth limit. unfold serve. fold (cache_key fileKey depth limit).
  destruct (getCache (cache_key fileKey depth limit) now cache)
    as [cached cache1].
  cbn [fst] in Hmiss. rewrite Hmiss, Hfile.
  apply Z.eqb_neq in H429. rewrite H429, Hok, Hjson, Hpick.
  cbn [negb orb]. fold ids.
  apply String.eqb_neq in Hids. rewrite Hids.
  destruct (fetchJson_resolved net _ resp Hnodes)
    as [res [Hres [Hrok [Hrstatus Hrjson]]]].
  rewrite Hres. cbn [answered code body calls].
  assert (Hempty : (if status res =? 429 then VObj []
                    else if ok res && Js.truthy (json res)
                         then Js.or (Js.get (json res) "nodes") (VObj [])
                         else VObj []) = VObj []).
  { destruct (status res =? 429) eqn:E; [reflexivity|].
    destruct Hfail as [Hs|[Hno|Hnone]].
    - apply Z.eqb_neq in E. congruence.
    - rewrite Hrok, Hno. reflexivity.
    - rewrite (Hrjson Hnone). now rewrite andb_false_r. }
  rewrite Hempty. repeat split; reflexivity.
Qed.

(** C3 on the uncached handler.  The file fetch succeeds; the node-detail
    fetch comes back 2xx with a body that does not parse.  [resp.json()]
    rejects inside the [try], so the answer is 500 and not 200 with empty
    nodes.  On the same upstream the caching handler, whose [fetchJson]
    catches the rejection, answers 200 with empty nodes. *)
Theorem enrich_unparsable_nodes_is_500 :
  let out := Enrich.handler env0 net_broken_nodes_plain req0 in
  let cached := handler env0 net_broken_nodes 0 req0 [] in
  node_fetch_failed
    (mkResponse 200 (Some "application/json") None None)
  /\ code (fst out) = 500
  /\ Js.get (body (fst out)) "error" = VStr "Unexpected error"
  /\ snd out = [Enrich.file_url "FILE" "1";
                Enrich.nodes_url "FILE" "1:1,1:2,1:4,2:1,2:2"]
  /\ code (answered cached) = 200
  /\ Js.get (body (answered cached)) "nodes" = VObj [].
Proof.
  cbv zeta. split; [right; right; reflexivity|].
  repeat split; vm_compute; reflexivity.
Qed.

(** The uncached handler does degrade on a rate-limited or otherwise
    non-2xx node-detail answer. *)
Lemma enrich_rate_limited_nodes_is_200 :
  let net := table [(Enrich.file_url "FILE" "1",
                     json_answer 120 200 two_canvases_file);
                    (Enrich.nodes_url "FILE" "1:1,1:2,1:4,2:1,2:2",
                     rate_limited 90)] in
  code (fst (Enrich.handler env0 net req0)) = 200
  /\ Js.get (body (fst (Enrich.handler env0 net req0))) "nodes" = VObj [].
Proof. cbv zeta. split; vm_compute; reflexivity. Qed.

(** ** The fallback on a rate-limited file fetch *)

Lemma find_filter {A : Type} (f g : A -> bool) (l : list A) :
  (forall x, In x l -> g x = false -> f x = false) ->
  find f (filter g l) = find f l.
Proof.
  induction l as [|a rest IH]; intros H; cbn [filter find].
  - reflexivity.
  - assert (IH' : find f (filter g rest) = find f rest)
      by (apply IH; intros x Hx; apply H; now right).
    destruct (g a) eqn:Hg; cbn [find].
    + now rewrite IH'.
    + rewrite (H a (or_introl eq_refl) Hg). exact IH'.
Qed.

Lemma assoc_unique (key : string) (c : Cache) (e e' : entry) :
  CacheMap.wf c -> CacheMap.get key c = Some e -> In (key, e') c -> e' = e.
Proof.
  unfold CacheMap.wf, CacheMap.get.
  induction c as [|[k x] rest IH]; cbn [Js.assoc map fst]; intros Hwf Hget Hin.
  - destruct Hin.
  - inversion Hwf as [|? ? Hnotin Hwf']; subst.
    destruct (String.eqb_spec key k) as [->|Hne].
    + injection Hget as ->. destruct Hin as [[= ->]|Hin]; [reflexivity|].
      exfalso. apply Hnotin. apply in_map_iff. now exists (k, e').
    + destruct Hin as [[= -> ->]|Hin]; [contradiction | now apply IH].
Qed.

Lemma getCache_incl (key : string) (now : Z) (c : Cache) :
  incl (snd (getCache key now c)) c.
Proof.
  unfold getCache. destruct (CacheMap.get key c) as [item|];
    [|apply incl_refl].
  destruct (now - ts item >? TTL_MS); [|apply incl_refl].
  cbn [snd]. unfold CacheMap.delete. intros x Hx.
  now apply filter_In in Hx.
Qed.

(** The purge of an expired entry by the exact-key lookup does not change
    what the fallback loop finds afterwards. *)
Lemma find_after_lookup (fileKey : param) (key : string) (now dt : Z)
  (c : Cache) :
  CacheMap.wf c -> 0 <= dt ->
  find (fallback_match fileKey (now + dt)) (snd (getCache key now c))
  = find (fallback_match fileKey (now + dt)) c.
Proof.
  intros Hwf Hdt. unfold getCache.
  destruct (CacheMap.get key c) as [item|] eqn:Hget; [|reflexivity].
  destruct (Z.gtb_spec (now - ts item) TTL_MS) as [Hold|Hfresh];
    [|reflexivity].
  cbn [snd]. unfold CacheMap.delete. apply find_filter.
  intros [k e] Hin Hk. cbn [fst] in Hk.
  apply negb_false_iff, String.eqb_eq in Hk. subst k.
  rewrite (assoc_unique key c item e Hwf Hget Hin).
  unfold fallback_match. cbn [fst snd].
  destruct (Z.leb_spec (now + dt - ts item) TTL_MS); [lia|].
  apply andb_false_r.
Qed.

Lemma assoc_set_same (k : string) (x : value) (fields : list (string * value)) :
  Js.assoc k (Js.set k x fields) = Some x.
Proof.
  induction fields as [|[k' y] rest IH]; cbn [Js.set Js.assoc].
  - now rewrite String.eqb_refl.
  - destruct (String.eqb_spec k k') as [->|Hne]; cbn [Js.assoc].
    + now rewrite String.eqb_refl.
    + apply String.eqb_neq in Hne. now rewrite Hne.
Qed.

Lemma marker_of_with_marker (v : value) (m : string) :
  Js.get (with_marker v m) "_cache" = VStr m.
Proof. unfold with_marker. cbn [Js.get]. now rewrite assoc_set_same. Qed.

Lemma assoc_set_other (k k' : string) (x : value)
  (fields : list (string * value)) :
  k <> k' -> Js.assoc k (Js.set k' x fields) = Js.assoc k fields.
Proof.
  intros Hne. induction fields as [|[k0 y] rest IH]; cbn [Js.set Js.assoc].
  - apply String.eqb_neq in Hne. now rewrite Hne.
  - destruct (String.eqb_spec k' k0) as [->|Hk]; cbn [Js.assoc].
    + apply String.eqb_neq in Hne. now rewrite Hne.
    + destruct (k =? k0)%string; [reflexivity | exact IH].
Qed.

(** C4. Take an accepted request whose file fetch was made and came back
    with status 429.  If the cache holds an entry whose key starts with
    the file key followed by a bar and whose age at that moment is within
    the TTL, the answer is 200 with the payload of the first such entry
    in the order of the cache, whatever its depth and limit: every
    property of that entry's value, unchanged, and the property [_cache]
    set to [fallback_on_429].  If it holds none, the answer is 429 with
    an error body and nothing is added to the cache.  The file URL is the
    only one fetched. *)
Theorem rate_limit_fallback (env : environment) (net : upstream) (now : Z)
  (req : request) (cache : Cache) (fileKey : param) (resp : Response) :
  let depth := or_default (q_depth req) "1" in
  let out := handler env net now req cache in
  let at_scan := now + elapsed (net (file_url fileKey depth)) in
  accepted env req fileKey ->
  CacheMap.wf cache ->
  calls out <> [] ->
  settled (net (file_url fileKey depth)) = Resolved resp ->
  r_status resp = 429 ->
  0 <= elapsed (net (file_url fileKey depth)) ->
  calls out = [file_url fileKey depth]
  /\ match find (fun kv => Str.startsWith (param_string fileKey ++ "|") (fst kv)
                           && (at_scan - ts (snd kv) <=? TTL_MS)) cache with
     | Some (_, e) =>
         answered out
         = mkReply 200 (with_marker (stored e) "fallback_on_429")
         /\ code (answered out) = 200
         /\ Js.get (body (answered out)) "_cache" = VStr "fallback_on_429"
         /\ (forall k, k <> "_cache" ->
                       Js.assoc k (Js.spread (body (answered out)))
                       = Js.assoc k (Js.spread (stored e)))
         /\ (forall fk fileJson screens nodes,
               stored e = payload_of fk fileJson screens nodes ->
               Js.keys (body (answered out))
               = (payload_keys ++ ["_cache"])%list
               /\ Js.get (body (answered out)) "file_key" = param_value fk
               /\ Js.get (body (answered out)) "file_name"
                  = Js.or (Js.get fileJson "name") (VStr "")
               /\ Js.get (body (answered out)) "last_modified"
                  = Js.or (Js.get fileJson "lastModified") (VStr "")
               /\ Js.get (body (answered out)) "screens" = VArr screens
               /\ Js.get (body (answered out)) "nodes" = nodes)
         /\ incl (cache_after out) cache
     | None =>
         code (answered out) = 429
         /\ Js.keys (body (answered out)) = ["error"]
         /\ (exists message, Js.get (body (answered out)) "error" = VStr message)
         /\ Js.get (body (answered out)) "_cache" = VUndef
         /\ incl (cache_after out) cache
     end.
Proof.
  intros depth out at_scan Hadm Hwf Hcalls Hfile H429 Hdt.
  change (fun kv : string * entry =>
            Str.startsWith (param_string fileKey ++ "|") (fst kv)
            && (at_scan - ts (snd kv) <=? TTL_MS))
    with (fallback_match fileKey at_scan).
  unfold at_scan.
  rewrite <- (find_after_lookup fileKey
                (cache_key fileKey depth (effective_limit (q_limit req)))
                now _ cache Hwf Hdt).
  pose proof (getCache_incl
                (cache_key fileKey depth (effective_limit (q_limit req)))
                now cache) as Hincl.
  revert Hcalls. unfold out.
  rewrite (handler_accepted env net now req cache fileKey Hadm).
  fold depth. unfold serve.
  fold (cache_key fileKey depth (effective_limit (q_limit req))).
  destruct (getCache (cache_key fileKey depth (effective_limit (q_limit req)))
              now cache) as [cached cache1].
  cbn [snd] in *.
  destruct (Js.truthy (or_null cached)); [cbn; congruence|].
  intros _.
  destruct (fetchJson_resolved net _ resp Hfile) as [res [Hres [_ [Hst _]]]].
  rewrite Hres, Hst, H429. cbn [Z.eqb Pos.eqb].
  destruct (find _ cache1) as [[k e]|]; cbn [answered calls code body cache_after].
  - split; [reflexivity|]. split; [reflexivity|]. split; [reflexivity|].
    split; [apply marker_of_with_marker|]. split; [|split; [|exact Hincl]].
    + intros k0 Hk0. unfold with_marker. cbn [Js.spread].
      now apply assoc_set_other.
    + intros fk fileJson screens nodes ->. repeat split.
  - split; [reflexivity|]. repeat split; trivial. eexists. reflexivity.
Qed.

Lemma rate_limit_fallback_witness :
  answered (handler env0 net_rate_limited 700000 req0 other_variants)
  = mkReply 200 (with_marker sample_payload "fallback_on_429")
  /\ Js.get (body (answered (handler env0 net_rate_limited 700000 req0
                               other_variants))) "_cache"
     = VStr "fallback_on_429".
Proof.
  assert (Hwf : CacheMap.wf other_variants).
  { unfold CacheMap.wf. cbn.
    repeat constructor; cbn; intuition discriminate. }
  destruct (rate_limit_fallback env0 net_rate_limited 700000 req0
              other_variants (One "FILE")
              (mkResponse 429 (Some "application/json; charset=utf-8")
                 (Some (VObj [("status", VNum 429);
                              ("err", VStr "Rate limit exceeded")])) None)
              accepted_req0 Hwf)
    as [_ H].
  - vm_compute. discriminate.
  - reflexivity.
  - reflexivity.
  - vm_compute. discriminate.
  - change (find _ other_variants)
      with (Some ("FILE|d=3|l=25", mkEntry 500000 sample_payload)) in H.
    destruct H as [Hans [_ [Hmarker _]]].
    split; [exact Hans | exact Hmarker].
Defined.

(** ** Two identical requests within the TTL *)

Lemma cache_get_set_same (key : string) (e : entry) (c : Cache) :
  CacheMap.get key (CacheMap.set key e c) = Some e.
Proof.
  unfold CacheMap.get.
  induction c as [|[k e'] rest IH]; cbn [CacheMap.set Js.assoc].
  - now rewrite String.eqb_refl.
  - destruct (String.eqb_spec key k) as [->|Hne]; cbn [Js.assoc].
    + now rewrite String.eqb_refl.
    + apply String.eqb_neq in Hne. now rewrite Hne.
Qed.







(** ** The envelope of a successful answer *)

Lemma getCache_some (key : string) (now : Z) (c : Cache) (v : value) :
  fst (getCache key now c) = Some v ->
  exists e, In (key, e) c /\ v = stored e.
Proof.
  unfold getCache. destruct (CacheMap.get key c) as [item|] eqn:Hget;
    [|discriminate].
  destruct (now - ts item >? TTL_MS); cbn [fst]; [discriminate|].
  intros [= <-]. exists item. split; [|reflexivity].
  unfold CacheMap.get in Hget. clear -Hget.
  induction c as [|[k e] rest IH]; cbn [Js.assoc] in Hget; [discriminate|].
  destruct (String.eqb_spec key k) as [->|Hne].
  - injection Hget as ->. now left.
  - right. now apply IH.
Qed.

Lemma defined_true (v : value) : v <> VUndef -> defined v = true.
Proof. destruct v; trivial. intros H. now destruct H. Qed.

Lemma param_value_defined (p : param) : param_value p <> VUndef.
Proof. destruct p; discriminate. Qed.

(** An object none of whose properties is [undefined] goes out with all
    its properties, in their order. *)
Lemma on_wire_all_defined (fields : list (string * value)) :
  Forall (fun kv => defined (snd kv) = true) fields ->
  Js.keys (on_wire (VObj fields)) = map fst fields
  /\ forall k x, Js.assoc k fields = Some x ->
                 Js.get (on_wire (VObj fields)) k = on_wire x.
Proof.
  induction 1 as [|[k0 x0] rest Hx _ [IHk IHg]]; cbn [snd] in *.
  - split; [reflexivity | discriminate].
  - split.
    + cbn [on_wire]. rewrite Hx. unfold Js.keys in *.
      cbn [Js.spread map fst] in *. now f_equal.
    + intros k x. cbn [on_wire Js.assoc]. rewrite Hx.
      cbn [Js.get Js.assoc].
      destruct (k =? k0)%string; [now intros [= ->]|].
      intros Hk. specialize (IHg k x Hk). cbn [on_wire Js.get] in IHg.
      exact IHg.
Qed.

Lemma on_wire_param (p : param) : on_wire (param_value p) = param_value p.
Proof.
  destruct p as [s|items]; cbn [param_value on_wire]; [reflexivity|].
  f_equal. induction items as [|i rest IH]; cbn [map]; [reflexivity|].
  now rewrite IH.
Qed.

Lemma on_wire_pairs (screens : list value) :
  Forall is_pair screens ->
  exists sent,
    on_wire (VArr screens) = VArr sent
    /\ List.length sent = List.length screens
    /\ Forall pair_on_wire sent.
Proof.
  intros H. eexists. split; [reflexivity|]. split; [apply length_map|].
  induction H as [|s rest [i [n ->]] _ IH]; cbn [map]; constructor; trivial.
  cbn [defined on_wire]. unfold pair_on_wire.
  destruct (defined i), (defined n); eexists; (split; [reflexivity|]);
    cbn [map fst]; intros k Hk; cbn in Hk |- *; tauto.
Qed.

(** A payload with its marker: the six fields, in this order, none of
    them [undefined], so that all six go out. *)
Lemma payload_envelope (v : value) (m : string) :
  is_payload v ->
  Js.keys (with_marker v m) = (payload_keys ++ ["_cache"])%list
  /\ Forall (fun k => Js.get (with_marker v m) k <> VUndef)
       (payload_keys ++ ["_cache"])
  /\ Js.keys (on_wire (with_marker v m)) = (payload_keys ++ ["_cache"])%list
  /\ Js.get (on_wire (with_marker v m)) "_cache" = VStr m
  /\ (exists sent,
        Js.get (on_wire (with_marker v m)) "screens" = VArr sent
        /\ Forall pair_on_wire sent)
  /\ (exists fileKey : param,
        Js.get (on_wire (with_marker v m)) "file_key" = param_value fileKey).
Proof.
  intros [fileKey [fileJson [screens [nodes [-> [Hpairs Hnodes]]]]]].
  assert (Hname : forall k, Js.or (Js.get fileJson k) (VStr "") <> VUndef)
    by (intros; apply or_defined; discriminate).
  pose proof (param_value_defined fileKey) as Hkey.
  assert (Hall : Forall (fun kv => defined (snd kv) = true)
                   (Js.spread (with_marker
                                 (payload_of fileKey fileJson screens nodes) m))).
  { repeat constructor; cbn [snd]; now apply defined_true. }
  destruct (on_wire_all_defined _ Hall) as [Hkeys Hget].
  change (VObj (Js.spread (with_marker
                             (payload_of fileKey fileJson screens nodes) m)))
    with (with_marker (payload_of fileKey fileJson screens nodes) m)
    in Hkeys, Hget.
  split; [reflexivity|]. split.
  { repeat constructor; cbn; try discriminate; trivial; apply Hname. }
  split; [exact Hkeys|]. split; [now rewrite (Hget "_cache" (VStr m))|].
  split.
  - destruct (on_wire_pairs screens Hpairs) as [sent [Hsent [_ Hforall]]].
    exists sent. split; [|exact Hforall].
    now rewrite (Hget "screens" (VArr screens)).
  - exists fileKey.
    rewrite (Hget "file_key" (param_value fileKey)) by reflexivity.
    apply on_wire_param.
Qed.

Lemma enrich_nodes_defined (resp : Response) (nodes : value) :
  (do nodesJson <- Enrich.read_json resp;
   do n <- Enrich.get_strict nodesJson "nodes";
   Ok (Js.or n (VObj []))) = Ok nodes ->
  defined nodes = true.
Proof.
  destruct (Enrich.read_json resp) as [nodesJson|m]; cbn [bind];
    [|discriminate].
  destruct (Enrich.get_strict nodesJson "nodes") as [n|m]; cbn [bind];
    [|discriminate].
  intros [= <-]. apply defined_true, or_defined. discriminate.
Qed.

(** Every 200 answer of the uncached handler is the object
    [{file_key, file_name, screens, nodes}]; [file_name] is what the
    upstream file gave as its name and goes out only if it gave one. *)
Lemma enrich_envelope (env : environment) (net : upstream) (req : request) :
  code (fst (Enrich.handler env net req)) = 200 ->
  Js.keys (body (fst (Enrich.handler env net req)))
  = ["file_key"; "file_name"; "screens"; "nodes"]
  /\ Js.keys (on_wire (body (fst (Enrich.handler env net req))))
     = (if defined (Js.get (body (fst (Enrich.handler env net req)))
                      "file_name")
        then ["file_key"; "file_name"; "screens"; "nodes"]
        else ["file_key"; "screens"; "nodes"]).
Proof.
  assert (Hbody : forall (fileKey : param) (name : value) screens nodes,
             defined nodes = true ->
             let b := VObj [("file_key", param_value fileKey);
                            ("file_name", name);
                            ("screens", VArr screens);
                            ("nodes", nodes)] in
             Js.keys b = ["file_key"; "file_name"; "screens"; "nodes"]
             /\ Js.keys (on_wire b)
                = (if defined (Js.get b "file_name")
                   then ["file_key"; "file_name"; "screens"; "nodes"]
                   else ["file_key"; "screens"; "nodes"])).
  { intros fileKey name screens nodes Hn b. split; [reflexivity|].
    unfold b. cbn [on_wire Js.get Js.assoc String.eqb Ascii.eqb Bool.eqb].
    rewrite Hn, (defined_true _ (param_value_defined fileKey)).
    cbn [defined]. now destruct (defined name). }
  unfold Enrich.handler.
  destruct (negb (method req =? "GET")%string); [discriminate|].
  destruct (negb (same _ _)); [discriminate|].
  destruct (given (q_file_key req)) as [fileKey|]; [|discriminate].
  destruct (settled (net _)) as [m|fileResp]; [discriminate|].
  destruct (negb (r_ok fileResp)) eqn:Hok.
  { cbn [fst code]. intros Hcode. apply negb_true_iff in Hok.
    unfold r_ok in Hok. rewrite Hcode in Hok. discriminate Hok. }
  destruct (bind (Enrich.read_json fileResp) _) as [[fileJson screens]|m];
    [|discriminate].
  destruct (Js.join _ =? "")%string; [intros _; now apply Hbody|].
  destruct (settled (net _)) as [m|nodesResp]; [discriminate|].
  destruct (r_ok nodesResp); [|intros _; now apply Hbody].
  destruct (bind (Enrich.read_json nodesResp) _) as [nodes|m] eqn:Hn;
    [|discriminate].
  intros _. apply Hbody. now apply (enrich_nodes_defined nodesResp).
Qed.

(** C9, as stated, fails on the uncached handler: its successful answer
    goes out with four fields and carries neither [last_modified] nor
    [_cache]. *)
Lemma enrich_envelope_has_four_fields :
  let net := table [(Enrich.file_url "FILE" "1",
                     json_answer 120 200 two_canvases_file);
                    (Enrich.nodes_url "FILE" "1:1,1:2,1:4,2:1,2:2",
                     json_answer 90 200 sample_nodes)] in
  let out := Enrich.handler env0 net req0 in
  code (fst out) = 200
  /\ Js.keys (body (fst out)) = ["file_key"; "file_name"; "screens"; "nodes"]
  /\ Js.keys (body (fst out)) <> (payload_keys ++ ["_cache"])%list
  /\ Js.get (body (fst out)) "_cache" = VUndef
  /\ Js.get (body (fst out)) "last_modified" = VUndef
  /\ Js.keys (on_wire (body (fst out)))
     = ["file_key"; "file_name"; "screens"; "nodes"]
  /\ Js.keys (on_wire (body (fst out))) <> (payload_keys ++ ["_cache"])%list.
Proof.
  cbv zeta. repeat split; try (vm_compute; reflexivity);
    vm_compute; discriminate.
Qed.

(** C9, amended.  In the caching handler, on every cache a process can
    hold, every 200 answer that is not the error envelope goes out with
    exactly the fields [file_key], [file_name], [last_modified],
    [screens], [nodes] and [_cache], none of them [undefined]; [screens]
    is a list of objects with no other property than [id] and [name]
    (each there when the selected node had it) and [_cache] is ["hit"],
    ["fallback_on_429"] or ["miss_set"].  In the uncached handler every
    200 answer goes out with exactly the fields [file_key], [screens]
    and [nodes], and between the first two [file_name] when the upstream
    file gave a name. *)
Theorem success_envelope (env : environment) (net : upstream) (now : Z)
  (req : request) (cache : Cache) (Hreach : reachable cache) :
  let out := handler env net now req cache in
  let sent := on_wire (body (answered out)) in
  let plain := Enrich.handler env net req in
  (code (answered out) = 200 ->
   Js.get (body (answered out)) "error" = VUndef ->
   Js.keys (body (answered out)) = (payload_keys ++ ["_cache"])%list
   /\ Forall (fun k => Js.get (body (answered out)) k <> VUndef)
        (payload_keys ++ ["_cache"])
   /\ Js.keys sent = (payload_keys ++ ["_cache"])%list
   /\ (exists m, In m markers /\ Js.get sent "_cache" = VStr m)
   /\ (exists screens,
         Js.get sent "screens" = VArr screens
         /\ Forall pair_on_wire screens)
   /\ (exists fileKey : param, Js.get sent "file_key" = param_value fileKey))
  /\ (code (fst plain) = 200 ->
      Js.keys (on_wire (body (fst plain)))
      = (if defined (Js.get (body (fst plain)) "file_name")
         then ["file_key"; "file_name"; "screens"; "nodes"]
         else ["file_key"; "screens"; "nodes"])).
Proof.
  intros out sent plain. split; [|intros H; now apply enrich_envelope].
  unfold sent. clear sent plain.
  apply reachable_ok in Hreach. destruct Hreach as [_ Hpay].
  assert (Hin : forall k e, In (k, e) cache -> is_payload (stored e)).
  { intros k e He. rewrite Forall_forall in Hpay. exact (Hpay (k, e) He). }
  assert (Hgoal : forall v m,
             is_payload v -> In m markers ->
             Js.keys (with_marker v m) = (payload_keys ++ ["_cache"])%list
             /\ Forall (fun k => Js.get (with_marker v m) k <> VUndef)
                  (payload_keys ++ ["_cache"])
             /\ Js.keys (on_wire (with_marker v m))
                = (payload_keys ++ ["_cache"])%list
             /\ (exists m', In m' markers
                            /\ Js.get (on_wire (with_marker v m)) "_cache"
                               = VStr m')
             /\ (exists screens,
                   Js.get (on_wire (with_marker v m)) "screens" = VArr screens
                   /\ Forall pair_on_wire screens)
             /\ (exists fileKey : param,
                   Js.get (on_wire (with_marker v m)) "file_key"
                   = param_value fileKey)).
  { intros v m Hv Hm.
    destruct (payload_envelope v m Hv) as [H1 [H2 [H3 [H4 [H5 H6]]]]].
    repeat split; trivial. now exists m. }
  unfold out, handler.
  destruct (negb (method req =? "GET")%string); [discriminate|].
  destruct (_ || _); [discriminate|].
  destruct (given (q_file_key req)) as [fileKey|]; [|discriminate].
  destruct (negb (depth_allowed _)); [discriminate|].
  destruct (present (FIGMA_PAT env)); [|discriminate].
  assert (Hlook' : forall key, incl (snd (getCache key now cache)) cache)
    by (intros; apply getCache_incl).
  assert (Hsome : forall key v, fst (getCache key now cache) = Some v ->
                                is_payload v).
  { intros key v Hv. apply getCache_some in Hv.
    destruct Hv as [e [He ->]]. now apply (Hin key). }
  serve_paths;
    try discriminate;
    try (intros _ Herr; discriminate Herr);
    match type of Hlook with
    | getCache ?k _ _ = _ =>
        specialize (Hlook' k); specialize (Hsome k); rewrite Hlook in *
    end; cbn [fst snd] in *.
  - intros _ _. destruct cached as [v|]; [|discriminate Hhit].
    apply Hgoal; [now apply Hsome | now left].
  - intros _ _. apply find_some in Hfind. destruct Hfind as [Hfound _].
    apply Hgoal; [|right; now left].
    apply (Hin fk). now apply Hlook'.
  - intros _ _. apply Hgoal; [|right; right; now left].
    apply payload_of_is_payload; [|discriminate].
    eapply pickTopScreens_pairs; eassumption.
  - intros _ _. apply Hgoal; [|right; right; now left].
    apply payload_of_is_payload; [|apply nodes_defined].
    eapply pickTopScreens_pairs; eassumption.
Qed.

Lemma success_envelope_witness :
  Js.keys (on_wire (body (answered (handler env0 net0 0 req0 []))))
  = ["file_key"; "file_name"; "last_modified"; "screens"; "nodes"; "_cache"].
Proof.
  destruct (success_envelope env0 net0 0 req0 [] reachable_start) as [H _].
  destruct H as [_ [_ [Hkeys _]]].
  - vm_compute. reflexivity.
  - vm_compute. reflexivity.
  - exact Hkeys.
Defined.

(** The 200 answers that carry the error envelope: a file answer
    with status 200 and no JSON is relayed with its own status, so the
    error envelope goes out under 200. *)
Lemma upstream_200_without_json :
  answered (handler env0 net_html 0 req0 [])
  = mkReply 200
      (VObj [("error", VStr "Figma file fetch failed");
             ("figma_status", VNum 200);
             ("figma_body", VStr "<html>maintenance</html>")])
  /\ cache_after (handler env0 net_html 0 req0 []) = [].
Proof. split; vm_compute; reflexivity. Qed.

(** ** Cache keys and the fallback prefix *)

(** C10. The cache key is the file key followed by ["|d="], the depth,
    ["|l="] and the limit, and the fallback takes any key that starts
    with the file key and a bar.  So there are two different file keys,
    ["abc"] and ["abc|x"], such that after a request for ["abc|x"] has
    been cached, a request for ["abc"] whose file fetch is rate-limited
    is answered 200 with the payload cached for ["abc|x"]. *)
Theorem fallback_crosses_files :
  exists F F' : string,
    F <> F'
    /\ F' = F ++ "|x"
    /\ let first :=
         handler env0 net_two_files 0
           (get_request (Some "s3cret") F' None None) [] in
       let second :=
         handler env0 net_two_files 1000
           (get_request (Some "s3cret") F None None) (cache_after first) in
       Js.get (body (answered first)) "_cache" = VStr "miss_set"
       /\ map fst (cache_after first) = [cache_key F' "1" (Int 10)]
       /\ Str.startsWith (F ++ "|") (cache_key F' "1" (Int 10)) = true
       /\ calls second = [file_url F "1"]
       /\ code (answered second) = 200
       /\ Js.get (body (answered second)) "_cache" = VStr "fallback_on_429"
       /\ Js.get (body (answered second)) "file_key" = VStr F'
       /\ body (answered second)
          = with_marker
              (payload_of F' two_canvases_file
                 [screen "1:1" "Home"; screen "1:2" "Login";
                  screen "1:4" "Settings"; screen "2:1" "Flows";
                  screen "2:2" "Archive"]
                 (VObj []))
              "fallback_on_429".
Proof.
  exists "abc", "abc|x". split; [discriminate|]. split; [reflexivity|].
  cbv zeta. repeat split; vm_compute; reflexivity.
Qed.

(** ** Samples of [parseInt] and [encodeURIComponent] *)

Example parseInt_10 : ParseInt.parseInt "10" = Int 10.
Proof. reflexivity. Qed.

Example parseInt_suffix : ParseInt.parseInt "  12px" = Int 12.
Proof. reflexivity. Qed.

Example parseInt_neg : ParseInt.parseInt "-7" = Int (-7).
Proof. reflexivity. Qed.

Example parseInt_word : ParseInt.parseInt "abc" = NaN.
Proof. reflexivity. Qed.

Example encode_pipe : Str.encodeURIComponent "a|b c" = "a%7Cb%20c".
Proof. reflexivity. Qed.

Example encode_ids :
  nodes_url "FILE" "1:1,1:2"
  = "https://api.figma.com/v1/files/FILE/nodes?ids=1%3A1%2C1%3A2".
Proof. reflexivity. Qed.

(** * Further properties of the code *)

(** ** [getCache] and [setCache] together *)

Lemma cache_get_set_other (key k : string) (e : entry) (c : Cache) :
  k <> key -> CacheMap.get k (CacheMap.set key e c) = CacheMap.get k c.
Proof.
  intros Hne. unfold CacheMap.get.
  induction c as [|[k' e'] rest IH]; cbn [CacheMap.set Js.assoc].
  - apply String.eqb_neq in Hne. now rewrite Hne.
  - destruct (String.eqb_spec key k') as [->|Hk]; cbn [Js.assoc].
    + apply String.eqb_neq in Hne. now rewrite Hne.
    + destruct (k =? k')%string; [reflexivity | exact IH].
Qed.

Lemma cache_get_delete_other (key k : string) (c : Cache) :
  k <> key -> CacheMap.get k (CacheMap.delete key c) = CacheMap.get k c.
Proof.
  intros Hne. unfold CacheMap.get, CacheMap.delete.
  induction c as [|[k' e'] rest IH]; cbn [filter Js.assoc fst].
  - reflexivity.
  - destruct (String.eqb_spec key k') as [<-|Hk]; cbn [negb Js.assoc].
    + apply String.eqb_neq in Hne. now rewrite Hne.
    + destruct (k =? k')%string; [reflexivity | exact IH].
Qed.

Lemma cache_get_delete_same (key : string) (c : Cache) :
  CacheMap.get key (CacheMap.delete key c) = None.
Proof.
  unfold CacheMap.get, CacheMap.delete.
  induction c as [|[k' e'] rest IH]; cbn [filter Js.assoc fst].
  - reflexivity.
  - destruct (String.eqb_spec key k') as [<-|Hk]; cbn [negb Js.assoc].
    + exact IH.
    + apply String.eqb_neq in Hk. now rewrite Hk.
Qed.

(** X1. What [setCache] stored, [getCache] gives back unchanged, and
    leaves in place, at every time up to the TTL after the store; at any
    later time it gives [null] and the key is gone from the cache. *)
Theorem set_then_get (key : string) (v : value) (stored_at now : Z)
  (c : Cache) :
  (now - stored_at <= TTL_MS ->
   getCache key now (setCache key v stored_at c)
   = (Some v, setCache key v stored_at c))
  /\ (TTL_MS < now - stored_at ->
      fst (getCache key now (setCache key v stored_at c)) = None
      /\ CacheMap.get key (snd (getCache key now (setCache key v stored_at c)))
         = None).
Proof.
  unfold getCache, setCache. rewrite cache_get_set_same. cbn [ts stored].
  split; intros H;
    destruct (Z.gtb_spec (now - stored_at) TTL_MS) as [Hgt|Hle]; try lia.
  - reflexivity.
  - cbn [fst snd]. split; [reflexivity | apply cache_get_delete_same].
Qed.

Lemma set_then_get_witness :
  getCache "FILE|d=1|l=10" 600000 (setCache "FILE|d=1|l=10" sample_payload 0 [])
  = (Some sample_payload, setCache "FILE|d=1|l=10" sample_payload 0 []).
Proof.
  destruct (set_then_get "FILE|d=1|l=10" sample_payload 0 600000 []) as [H _].
  apply H. unfold TTL_MS. lia.
Defined.

Lemma set_wf (key : string) (e : entry) (c : Cache) :
  CacheMap.wf c -> CacheMap.wf (CacheMap.set key e c).
Proof.
  unfold CacheMap.wf. intros Hwf.
  induction c as [|[k e'] rest IH]; cbn [CacheMap.set map fst].
  - repeat constructor. intros [].
  - inversion Hwf as [|? ? Hnotin Hwf']; subst.
    destruct (String.eqb_spec key k) as [->|Hne]; cbn [map fst].
    + now constructor.
    + constructor; [|now apply IH].
      intros Hin. apply set_keys in Hin.
      destruct Hin as [Hin|Hin]; [now subst | contradiction].
Qed.

(** X2. [setCache] touches one key only: the entry of every other key is
    what it was, a cache that holds each key once still does, and the
    cache grows by at most one entry. *)
Theorem setCache_frame (key : string) (v : value) (now : Z) (c : Cache) :
  (forall k, k <> key ->
             CacheMap.get k (setCache key v now c) = CacheMap.get k c)
  /\ (CacheMap.wf c -> CacheMap.wf (setCache key v now c))
  /\ (List.length (setCache key v now c) <= S (List.length c))%nat
  /\ (List.length c <= List.length (setCache key v now c))%nat.
Proof.
  unfold setCache. split; [|split].
  - intros k Hk. now apply cache_get_set_other.
  - apply set_wf.
  - induction c as [|[k e'] rest IH]; cbn [CacheMap.set List.length].
    + split; lia.
    + destruct (key =? k)%string; cbn [List.length]; lia.
Qed.

(** X3. Storing under a key that the cache already holds replaces the
    entry where it stands, so the order in which the fallback loop meets
    the keys does not change; a new key goes to the end.  Storing twice
    under one key is the same as storing the second value only. *)
Theorem setCache_order (key : string) (v v' : value) (t t' : Z) (c : Cache) :
  (In key (map fst c) -> map fst (setCache key v t c) = map fst c)
  /\ (~ In key (map fst c) ->
      setCache key v t c = (c ++ [(key, mkEntry t v)])%list)
  /\ setCache key v' t' (setCache key v t c) = setCache key v' t' c.
Proof.
  unfold setCache. split; [|split].
  - induction c as [|[k e'] rest IH]; cbn [CacheMap.set map fst In].
    + intros [].
    + intros Hin. destruct (String.eqb_spec key k) as [->|Hne]; cbn [map fst].
      * reflexivity.
      * f_equal. apply IH. destruct Hin as [Hin|Hin]; [congruence | exact Hin].
  - induction c as [|[k e'] rest IH]; cbn [CacheMap.set map fst In app].
    + reflexivity.
    + intros Hnot. destruct (String.eqb_spec key k) as [->|Hne].
      * exfalso. apply Hnot. now left.
      * f_equal. apply IH. intros Hin. apply Hnot. now right.
  - induction c as [|[k e'] rest IH]; cbn [CacheMap.set].
    + now rewrite String.eqb_refl.
    + destruct (String.eqb_spec key k) as [->|Hne]; cbn [CacheMap.set].
      * now rewrite String.eqb_refl.
      * apply String.eqb_neq in Hne. rewrite Hne. now rewrite IH.
Qed.

Lemma setCache_order_witness :
  map fst (setCache "OTHER|d=1|l=10" sample_payload 900000 other_variants)
  = map fst other_variants.
Proof.
  destruct (setCache_order "OTHER|d=1|l=10" sample_payload sample_payload
              900000 900000 other_variants) as [H _].
  apply H. cbn. right. now left.
Defined.

(** X4. What a lookup does to the cache.  A lookup that returns a payload
    changes nothing.  A lookup that returns [null] leaves no entry under
    the key: it was absent, or it had expired and has been deleted.  No
    lookup adds an entry or touches the entry of another key. *)
Theorem getCache_effect (key : string) (now : Z) (c : Cache) :
  (forall v, fst (getCache key now c) = Some v -> snd (getCache key now c) = c)
  /\ (fst (getCache key now c) = None ->
      CacheMap.get key (snd (getCache key now c)) = None)
  /\ (forall k, k <> key ->
                CacheMap.get k (snd (getCache key now c)) = CacheMap.get k c)
  /\ incl (snd (getCache key now c)) c.
Proof.
  split; [|split; [|split]].
  - intros v. unfold getCache. destruct (CacheMap.get key c) as [item|];
      [|discriminate].
    destruct (now - ts item >? TTL_MS); [discriminate | reflexivity].
  - unfold getCache. destruct (CacheMap.get key c) as [item|] eqn:Hget.
    + destruct (now - ts item >? TTL_MS); cbn [fst snd]; [|discriminate].
      intros _. apply cache_get_delete_same.
    + now intros _.
  - intros k Hk. unfold getCache. destruct (CacheMap.get key c) as [item|];
      [|reflexivity].
    destruct (now - ts item >? TTL_MS); cbn [snd]; [|reflexivity].
    now apply cache_get_delete_other.
  - apply getCache_incl.
Qed.

Lemma getCache_effect_witness :
  CacheMap.get "FILE|d=1|l=10" (snd (getCache "FILE|d=1|l=10" 600001 old_cache))
  = None.
Proof.
  destruct (getCache_effect "FILE|d=1|l=10" 600001 old_cache) as [_ [H _]].
  apply H. reflexivity.
Defined.

Lemma setCache_frame_witness :
  CacheMap.get "FILE|d=3|l=25"
    (setCache "FILE|d=1|l=10" sample_payload 900000 other_variants)
  = CacheMap.get "FILE|d=3|l=25" other_variants.
Proof.
  destruct (setCache_frame "FILE|d=1|l=10" sample_payload 900000 other_variants)
    as [H _].
  apply H. discriminate.
Defined.

(** ** [fetchJson] *)

(** X5. [fetchJson] throws only when the fetch itself rejects, with the
    same message.  Otherwise it returns the upstream status as it is, with
    [ok] set exactly for a status from 200 to 299; [json] is other than
    [null] only under a JSON content type, and is then what the body
    parsed to; [text] is non-empty only under another content type; so
    [json] and [text] are never both filled. *)
Theorem fetchJson_classifies (net : upstream) (url : string) :
  match settled (net url) with
  | Rejected m => fetchJson net url = Throw m
  | Resolved resp =>
      let ct := match r_content_type resp with Some s => s | None => "" end in
      exists res,
        fetchJson net url = Ok res
        /\ status res = r_status resp
        /\ (ok res = true <-> 200 <= r_status resp <= 299)
        /\ (json res <> VNull ->
            Str.includes "application/json" ct = true
            /\ r_json resp = Some (json res)
            /\ text res = "")
        /\ (text res <> "" ->
            Str.includes "application/json" ct = false
            /\ r_text resp = Some (text res)
            /\ json res = VNull)
  end.
Proof.
  unfold fetchJson. destruct (settled (net url)) as [m|resp]; [reflexivity|].
  cbv zeta. eexists. split; [reflexivity|]. cbn [status ok json text].
  split; [reflexivity|]. split; [|split].
  - unfold r_ok. rewrite andb_true_iff, !Z.leb_le. reflexivity.
  - destruct (Str.includes _ _); [|congruence].
    destruct (r_json resp) as [v|]; [|congruence]. now intros _.
  - destruct (Str.includes _ _); [congruence|].
    destruct (r_text resp) as [t|]; [|congruence]. now intros _.
Qed.

Lemma fetchJson_classifies_witness :
  exists res,
    fetchJson net_html (file_url "FILE" "1") = Ok res
    /\ ok res = true /\ json res = VNull
    /\ text res = "<html>maintenance</html>".
Proof.
  pose proof (fetchJson_classifies net_html (file_url "FILE" "1")) as H.
  cbn in H. destruct H as [res [Hres [Hst [Hok [_ Htext]]]]].
  exists res. split; [exact Hres|].
  injection Hres as <-. cbn. repeat split.
Defined.

(** ** [pickTopScreens] on any parsed JSON *)

Section SelectionBounds.

Variable limit : Z.
Hypothesis limit_pos : 1 <= limit.

Lemma scan_pages_bound (pages acc screens : list value) :
  Z.of_nat (List.length acc) < limit ->
  scan_pages (Int limit) pages acc = Ok screens ->
  Z.of_nat (List.length screens) <= limit.
Proof.
  revert acc. induction pages as [|p rest IH]; intros acc Hacc;
    cbn [scan_pages].
  - intros [= <-]. lia.
  - destruct (is_canvas p); cbn [negb]; [|now apply IH].
    destruct (iterate _) as [nodes|m]; cbn [bind]; [|discriminate].
    rewrite (scan_nodes_spec limit limit_pos) by exact Hacc. cbv zeta.
    destruct (Z.leb_spec limit
                (Z.of_nat (List.length
                             (acc ++ map screen_of (filter is_screen nodes)))))
      as [Hge|Hlt].
    + intros [= <-]. rewrite length_firstn. lia.
    + now apply IH.
Qed.

End SelectionBounds.

(** X6. Whatever JSON the upstream sent, if [pickTopScreens] returns under
    a limit of at least 1, it returns at most [limit] screens, and each of
    them is an object with exactly the properties [id] and [name]. *)
Theorem pickTopScreens_bounded (fileJson : value) (limit : Z)
  (screens : list value) :
  1 <= limit ->
  pickTopScreens fileJson (Int limit) = Ok screens ->
  Z.of_nat (List.length screens) <= limit
  /\ Forall (fun s => Js.keys s = ["id"; "name"]) screens.
Proof.
  intros Hlimit Hpick. split.
  - revert Hpick. unfold pickTopScreens.
    destruct (iterate _) as [pages|m]; cbn [bind]; [|discriminate].
    apply (scan_pages_bound limit Hlimit). cbn. lia.
  - apply pickTopScreens_pairs in Hpick.
    eapply Forall_impl; [|exact Hpick].
    now intros s [i [n ->]].
Qed.

Lemma pickTopScreens_bounded_witness :
  Z.of_nat (List.length [screen "1:1" "Home"; screen "1:2" "Login"]) <= 2.
Proof.
  destruct (pickTopScreens_bounded two_canvases_file 2
              [screen "1:1" "Home"; screen "1:2" "Login"]) as [H _].
  - lia.
  - reflexivity.
  - exact H.
Defined.

Lemma scan_nodes_nan (nodes acc : list value) :
  scan_nodes NaN nodes acc
  = Next (acc ++ map screen_of (filter is_screen nodes))%list.
Proof.
  revert acc. induction nodes as [|n rest IH]; intros acc;
    cbn [scan_nodes filter map].
  - now rewrite app_nil_r.
  - destruct (is_screen n); cbn [ge_num map].
    + rewrite IH. now rewrite <- app_assoc.
    + apply IH.
Qed.

Lemma scan_pages_nan (pages acc : list value) :
  walkable pages ->
  scan_pages NaN pages acc = Ok (acc ++ flat_map page_screens pages)%list.
Proof.
  intros Hwalk. revert acc.
  induction Hwalk as [|page rest Hpage _ IH]; intros acc;
    cbn [scan_pages flat_map].
  - now rewrite app_nil_r.
  - unfold page_screens at 1. destruct (is_canvas page) eqn:Hc; cbn [negb].
    + destruct (Hpage eq_refl) as [nodes Hnodes].
      unfold children_of. rewrite Hnodes. cbn [bind].
      rewrite scan_nodes_nan, IH. now rewrite <- app_assoc.
    + cbn [app]. apply IH.
Qed.

(** X7. Under the limit [NaN], which is what a limit that is not a number
    becomes, the selection never stops early: on every well-formed
    document tree [pickTopScreens] returns every frame and section of
    every canvas, however many there are. *)
Theorem pickTopScreens_nan_takes_all (fileName lastModified : string)
  (pages : list node) :
  pickTopScreens (file_of fileName lastModified pages) NaN
  = Ok (all_screens pages).
Proof.
  unfold pickTopScreens.
  change (iterate _) with (@Ok (list value) (map to_value pages)).
  cbn [bind]. rewrite scan_pages_nan by apply walkable_to_value.
  cbn [app]. now rewrite flat_map_to_value.
Qed.

Lemma scan_pages_chars (limit : num) (s : string) (acc : list value) :
  scan_pages limit (Js.chars s) acc = Ok acc.
Proof.
  unfold Js.chars.
  induction (list_ascii_of_string s) as [|c rest IH]; cbn [map scan_pages].
  - reflexivity.
  - exact IH.
Qed.

(** X8. How [pickTopScreens] takes a file without a usable page list.
    When [document.children] is missing or falsy (no document, [null],
    an empty string, 0) the result is the empty list.  A string there is
    walked character by character and also gives the empty list.  Any
    other value that is not an array (an object, [true], a number other
    than 0) makes the loop throw. *)
Theorem pickTopScreens_without_pages (fileJson : value) (limit : num) :
  let children := Js.get (Js.get fileJson "document") "children" in
  (Js.truthy children = false -> pickTopScreens fileJson limit = Ok [])
  /\ (forall s, children = VStr s -> pickTopScreens fileJson limit = Ok [])
  /\ (Js.truthy children = true ->
      (forall items, children <> VArr items) ->
      (forall s, children <> VStr s) ->
      exists m, pickTopScreens fileJson limit = Throw m).
Proof.
  cbv zeta. unfold pickTopScreens, Js.or. split; [|split].
  - intros ->. reflexivity.
  - intros s ->. destruct (Js.truthy (VStr s)); cbn [iterate bind].
    + apply scan_pages_chars.
    + reflexivity.
  - intros -> Harr Hstr.
    destruct (Js.get (Js.get fileJson "document") "children") as
      [ | |b|n|s|items|fields]; cbn [iterate bind];
      try (eexists; reflexivity).
    + now destruct (Hstr s).
    + now destruct (Harr items).
Qed.

Lemma pickTopScreens_without_pages_witness :
  pickTopScreens (VObj [("name", VStr "Empty")]) (Int 10) = Ok []
  /\ exists m,
       pickTopScreens (VObj [("document", VObj [("children", VObj [])])])
         (Int 10) = Throw m.
Proof.
  split.
  - destruct (pickTopScreens_without_pages (VObj [("name", VStr "Empty")])
                (Int 10)) as [H _].
    apply H. reflexivity.
  - destruct (pickTopScreens_without_pages
                (VObj [("document", VObj [("children", VObj [])])]) (Int 10))
      as [_ [_ H]].
    apply H; [reflexivity | discriminate | discriminate].
Defined.

(** ** The handler: requests that are turned away *)

(** A request that is not accepted is answered on the spot. *)
Lemma handler_turned_away (env : environment) (net : upstream) (now : Z)
  (req : request) (cache : Cache) :
  (forall fileKey, ~ accepted env req fileKey) ->
  calls (handler env net now req cache) = []
  /\ cache_after (handler env net now req cache) = cache.
Proof.
  intros Hno. unfold handler.
  destruct (String.eqb_spec (method req) "GET") as [Hget|Hget]; cbn [negb];
    [|now split].
  destruct (_ || _) eqn:Hguard; [now split|].
  apply guard_authorized in Hguard.
  destruct (given (q_file_key req)) as [fileKey|] eqn:Hkey; [|now split].
  destruct (depth_allowed _) eqn:Hdepth; cbn [negb]; [|now split].
  destruct (present (FIGMA_PAT env)) eqn:Hpat; [|now split].
  exfalso. apply (Hno fileKey). repeat split; trivial. congruence.
Qed.

(** X9. The order of the checks.  Any method but GET is answered 405; an
    authorized GET without a file key (absent or empty) 400; with a file
    key and a depth outside 1, 2, 3, 400; with both in order and no
    upstream token configured, 500.  None of these requests, and no
    request that is not accepted, causes an upstream call or changes the
    cache. *)
Theorem validation_order (env : environment) (net : upstream) (now : Z)
  (req : request) (cache : Cache) :
  let out := handler env net now req cache in
  (method req <> "GET" ->
   answered out = mkReply 405 (VObj [("error", VStr "Method not allowed")]))
  /\ (method req = "GET" -> authorized env req ->
      given (q_file_key req) = None ->
      answered out = mkReply 400 (VObj [("error", VStr "Missing file_key")]))
  /\ (forall fileKey,
        method req = "GET" -> authorized env req ->
        given (q_file_key req) = Some fileKey ->
        depth_allowed (or_default (q_depth req) "1") = false ->
        answered out
        = mkReply 400 (VObj [("error", VStr "depth must be 1,2,3")]))
  /\ (forall fileKey,
        method req = "GET" -> authorized env req ->
        given (q_file_key req) = Some fileKey ->
        depth_allowed (or_default (q_depth req) "1") = true ->
        present (FIGMA_PAT env) = None ->
        answered out
        = mkReply 500
            (VObj [("error",
                    VStr "Server misconfigured: FIGMA_PAT missing")]))
  /\ ((forall fileKey, ~ accepted env req fileKey) ->
      calls out = [] /\ cache_after out = cache).
Proof.
  cbv zeta. split; [|split; [|split; [|split]]].
  - intros Hm. unfold handler. apply String.eqb_neq in Hm. now rewrite Hm.
  - intros Hm Ha Hk. unfold handler. rewrite Hm.
    cbn [String.eqb Ascii.eqb Bool.eqb negb andb].
    apply guard_authorized in Ha. now rewrite Ha, Hk.
  - intros fileKey Hm Ha Hk Hd. unfold handler. rewrite Hm.
    cbn [String.eqb Ascii.eqb Bool.eqb negb andb].
    apply guard_authorized in Ha. now rewrite Ha, Hk, Hd.
  - intros fileKey Hm Ha Hk Hd Hp. unfold handler. rewrite Hm.
    cbn [String.eqb Ascii.eqb Bool.eqb negb andb].
    apply guard_authorized in Ha. now rewrite Ha, Hk, Hd, Hp.
  - apply handler_turned_away.
Qed.

Lemma validation_order_witness :
  answered (handler (mkEnv (Some "s3cret") None) net0 0 req0 [])
  = mkReply 500
      (VObj [("error", VStr "Server misconfigured: FIGMA_PAT missing")])
  /\ answered (handler env0 net0 0
                 (mkRequest "GET" (Some "s3cret") (Some (One "")) None None) [])
     = mkReply 400 (VObj [("error", VStr "Missing file_key")]).
Proof.
  assert (Hauth : forall pat r,
             x_relay_key r = Some "s3cret" ->
             authorized (mkEnv (Some "s3cret") pat) r).
  { intros pat r Hr. exists "s3cret". repeat split; [discriminate | exact Hr]. }
  split.
  - destruct (validation_order (mkEnv (Some "s3cret") None) net0 0 req0 [])
      as [_ [_ [_ [H _]]]].
    apply (H "FILE"); try reflexivity. now apply Hauth.
  - destruct (validation_order env0 net0 0
                (mkRequest "GET" (Some "s3cret") (Some (One "")) None None) [])
      as [_ [H _]].
    apply H; try reflexivity. now apply Hauth.
Defined.

(** ** The handler: what it fetches *)

Lemma serve_calls (net : upstream) (now : Z) (fileKey : param) (depth : string)
  (limit : num) (cache : Cache) :
  let out := serve net now fileKey depth limit cache in
  (calls out = []
   /\ Js.truthy (or_null (fst (getCache (cache_key fileKey depth limit)
                                 now cache))) = true)
  \/ (Js.truthy (or_null (fst (getCache (cache_key fileKey depth limit)
                                 now cache))) = false
      /\ (calls out = [file_url fileKey depth]
          \/ exists ids,
               ids <> ""
               /\ calls out = [file_url fileKey depth; nodes_url fileKey ids])).
Proof.
  cbv zeta. unfold cache_key.
  serve_paths; cbn [fst]; rewrite Hhit;
    first [ left; split; reflexivity
          | right; split; [reflexivity|]; left; reflexivity
          | right; split; [reflexivity|]; right; eexists; split;
            [apply String.eqb_neq; eassumption | reflexivity] ].
Qed.

(** X10. The handler calls the upstream exactly when the request is
    accepted and the lookup under its cache key gives nothing.  It then
    fetches the file first and at most once, and after it at most the
    nodes of that same file, for a non-empty list of ids: never more than
    two calls. *)
Theorem upstream_calls (env : environment) (net : upstream) (now : Z)
  (req : request) (cache : Cache) :
  let out := handler env net now req cache in
  let depth := or_default (q_depth req) "1" in
  let limit := effective_limit (q_limit req) in
  (calls out <> [] <->
   exists fileKey,
     accepted env req fileKey
     /\ Js.truthy (or_null (fst (getCache (cache_key fileKey depth limit)
                                   now cache))) = false)
  /\ (calls out = []
      \/ exists fileKey,
           given (q_file_key req) = Some fileKey
           /\ (calls out = [file_url fileKey depth]
               \/ exists ids,
                    ids <> ""
                    /\ calls out
                       = [file_url fileKey depth; nodes_url fileKey ids])).
Proof.
  cbv zeta.
  assert (Hdec : (exists fileKey, accepted env req fileKey)
                 \/ forall fileKey, ~ accepted env req fileKey).
  { destruct (String.eqb_spec (method req) "GET") as [Hm|Hm];
      [|right; intros fk [H _]; contradiction].
    destruct (authorized_dec env req) as [Ha|Ha];
      [|right; intros fk [_ [H _]]; contradiction].
    destruct (given (q_file_key req)) as [fk|] eqn:Hk;
      [|right; intros fk [_ [_ [H _]]]; congruence].
    destruct (depth_allowed (or_default (q_depth req) "1")) eqn:Hd;
      [|right; intros fk' [_ [_ [_ [H _]]]]; congruence].
    destruct (present (FIGMA_PAT env)) eqn:Hp;
      [|right; intros fk' [_ [_ [_ [_ H]]]]; contradiction].
    left. exists fk. repeat split; trivial. congruence. }
  destruct Hdec as [[fk Hacc]|Hno].
  - rewrite (handler_accepted env net now req cache fk Hacc).
    pose proof (serve_calls net now fk (or_default (q_depth req) "1")
                  (effective_limit (q_limit req)) cache) as Hc.
    cbv zeta in Hc.
    assert (Hfk : given (q_file_key req) = Some fk) by apply Hacc.
    split.
    + split.
      * intros Hcalls. exists fk. split; [exact Hacc|].
        destruct Hc as [[Hnil _]|[Hmiss _]]; [contradiction | exact Hmiss].
      * intros [fk' [Hacc' Hmiss]].
        assert (fk' = fk) as ->.
        { destruct Hacc' as [_ [_ [Hk' _]]]. congruence. }
        destruct Hc as [[_ Hhit]|[_ [Hc|[ids [_ Hc]]]]];
          [congruence | rewrite Hc; discriminate | rewrite Hc; discriminate].
    + destruct Hc as [[Hnil _]|[_ Hc]]; [now left|].
      right. exists fk. split; [exact Hfk | exact Hc].
  - destruct (handler_turned_away env net now req cache Hno) as [Hnil _].
    split; [|now left]. rewrite Hnil. split; [congruence|].
    intros [fk [Hacc _]]. now destruct (Hno fk).
Qed.

Lemma upstream_calls_witness :
  calls (handler env0 net0 600001 req0 old_cache) <> [].
Proof.
  destruct (upstream_calls env0 net0 600001 req0 old_cache) as [[_ H] _].
  apply H. exists "FILE". split; [exact accepted_req0 | reflexivity].
Defined.

(** ** The handler: what it does to the cache *)

Lemma accepted_dec (env : environment) (req : request) :
  (exists fileKey, accepted env req fileKey)
  \/ forall fileKey, ~ accepted env req fileKey.
Proof.
  destruct (String.eqb_spec (method req) "GET") as [Hm|Hm];
    [|right; intros fk [H _]; contradiction].
  destruct (authorized_dec env req) as [Ha|Ha];
    [|right; intros fk [_ [H _]]; contradiction].
  destruct (given (q_file_key req)) as [fk|] eqn:Hk;
    [|right; intros fk [_ [_ [H _]]]; congruence].
  destruct (depth_allowed (or_default (q_depth req) "1")) eqn:Hd;
    [|right; intros fk' [_ [_ [_ [H _]]]]; congruence].
  destruct (present (FIGMA_PAT env)) eqn:Hp;
    [|right; intros fk' [_ [_ [_ [_ H]]]]; contradiction].
  left. exists fk. repeat split; trivial. congruence.
Qed.

Lemma turned_away_no_marker (env : environment) (net : upstream) (now : Z)
  (req : request) (cache : Cache) :
  (forall fileKey, ~ accepted env req fileKey) ->
  Js.get (body (answered (handler env net now req cache))) "_cache" = VUndef.
Proof.
  intros Hno. unfold handler.
  destruct (String.eqb_spec (method req) "GET") as [Hget|Hget]; cbn [negb];
    [|reflexivity].
  destruct (_ || _) eqn:Hguard; [reflexivity|].
  apply guard_authorized in Hguard.
  destruct (given (q_file_key req)) as [fileKey|] eqn:Hkey; [|reflexivity].
  destruct (depth_allowed _) eqn:Hdepth; cbn [negb]; [|reflexivity].
  destruct (present (FIGMA_PAT env)) eqn:Hpat; [|reflexivity].
  exfalso. apply (Hno fileKey). repeat split; trivial. congruence.
Qed.

Lemma getCache_other (key k : string) (now : Z) (c : Cache) :
  k <> key -> CacheMap.get k (snd (getCache key now c)) = CacheMap.get k c.
Proof.
  intros Hk. unfold getCache. destruct (CacheMap.get key c) as [item|];
    [|reflexivity].
  destruct (now - ts item >? TTL_MS); cbn [snd]; [|reflexivity].
  now apply cache_get_delete_other.
Qed.

Lemma getCache_hit_keeps (key : string) (now : Z) (c : Cache) :
  Js.truthy (or_null (fst (getCache key now c))) = true ->
  snd (getCache key now c) = c.
Proof.
  unfold getCache. destruct (CacheMap.get key c) as [item|];
    [|reflexivity].
  destruct (now - ts item >? TTL_MS); [discriminate | reflexivity].
Qed.

(** Every way out of [serve], by what it leaves in the cache. *)
Lemma serve_stores (net : upstream) (now : Z) (fileKey : param) (depth : string)
  (limit : num) (cache : Cache) :
  let out := serve net now fileKey depth limit cache in
  let key := cache_key fileKey depth limit in
  let looked := snd (getCache key now cache) in
  (cache_after out = looked
   /\ Js.get (body (answered out)) "_cache" <> VStr "miss_set"
   /\ (Js.get (body (answered out)) "_cache" = VStr "hit" ->
       calls out = [] /\ looked = cache)
   /\ (Js.get (body (answered out)) "_cache" = VStr "fallback_on_429" ->
       calls out = [file_url fileKey depth]))
  \/ (exists payload stamp,
        answered out = mkReply 200 (with_marker payload "miss_set")
        /\ cache_after out = setCache key payload stamp looked
        /\ calls out <> []).
Proof.
  cbv zeta. unfold cache_key.
  pose proof (getCache_hit_keeps
                (param_string fileKey ++ "|d=" ++ depth ++ "|l="
                 ++ num_to_string limit)
                now cache) as Hkeep.
  serve_paths; cbn [fst snd] in *;
    try rewrite marker_of_with_marker;
    first
      [ right; eexists _, _; repeat split; discriminate
      | left; repeat split;
        first [reflexivity | discriminate | now apply Hkeep] ].
Qed.

(** X11. What a run can do to the cache.  The entry of every key other
    than the cache key of the request is what it was before; the cache
    grows by at most one entry; and unless the answer carries the marker
    [miss_set], nothing is stored: every entry of the cache afterwards
    was there before. *)
Theorem handler_cache_frame (env : environment) (net : upstream) (now : Z)
  (req : request) (cache : Cache) :
  let out := handler env net now req cache in
  let depth := or_default (q_depth req) "1" in
  let limit := effective_limit (q_limit req) in
  (forall k,
     (forall fileKey, given (q_file_key req) = Some fileKey ->
                      k <> cache_key fileKey depth limit) ->
     CacheMap.get k (cache_after out) = CacheMap.get k cache)
  /\ (Js.get (body (answered out)) "_cache" <> VStr "miss_set" ->
      incl (cache_after out) cache)
  /\ (List.length (cache_after out) <= S (List.length cache))%nat.
Proof.
  cbv zeta. destruct (accepted_dec env req) as [[fk Hacc]|Hno].
  - rewrite (handler_accepted env net now req cache fk Hacc).
    assert (Hfk : given (q_file_key req) = Some fk) by apply Hacc.
    pose proof (serve_stores net now fk (or_default (q_depth req) "1")
                  (effective_limit (q_limit req)) cache) as Hs.
    cbv zeta in Hs.
    set (key := cache_key fk (or_default (q_depth req) "1")
                  (effective_limit (q_limit req))) in *.
    pose proof (getCache_incl key now cache) as Hincl.
    assert (Hlen : (List.length (snd (getCache key now cache))
                    <= List.length cache)%nat).
    { unfold getCache. destruct (CacheMap.get key cache) as [item|];
        [|cbn; lia].
      destruct (now - ts item >? TTL_MS); cbn [snd]; [|lia].
      apply filter_length_le. }
    destruct Hs as [[Hc [Hm _]]|[payload [stamp [Hans [Hc _]]]]];
      rewrite Hc; split; [|split| |split].
    + intros k Hk. apply getCache_other. now apply Hk.
    + intros _. exact Hincl.
    + lia.
    + intros k Hk. unfold setCache.
      rewrite cache_get_set_other by now apply Hk.
      apply getCache_other. now apply Hk.
    + rewrite Hans. cbn [answered body]. rewrite marker_of_with_marker.
      congruence.
    + unfold setCache.
      assert (Hset : forall e c,
                 (List.length (CacheMap.set key e c) <= S (List.length c))%nat).
      { intros e c. induction c as [|[k e'] rest IH];
          cbn [CacheMap.set List.length]; [lia|].
        destruct (key =? k)%string; cbn [List.length]; lia. }
      specialize (Hset (mkEntry stamp payload) (snd (getCache key now cache))).
      lia.
  - destruct (handler_turned_away env net now req cache Hno) as [_ Hc].
    rewrite Hc. split; [|split]; [reflexivity | intros _; apply incl_refl | lia].
Qed.

Lemma handler_cache_frame_witness :
  incl (cache_after (handler env0 net_rate_limited 700000 req0 other_variants))
    other_variants.
Proof.
  destruct (handler_cache_frame env0 net_rate_limited 700000 req0
              other_variants) as [_ [H _]].
  apply H. vm_compute. discriminate.
Defined.

(** X12. The marker tells where the answer came from.  Under [hit]
    nothing was fetched and the cache is as it was.  Under
    [fallback_on_429] exactly the file was fetched and nothing was
    stored.  Under [miss_set] the request was accepted, something was
    fetched, and the cache now holds, under the cache key of the request,
    exactly the answer without its marker. *)
Theorem marker_provenance (env : environment) (net : upstream) (now : Z)
  (req : request) (cache : Cache) :
  let out := handler env net now req cache in
  let depth := or_default (q_depth req) "1" in
  let limit := effective_limit (q_limit req) in
  let marker := Js.get (body (answered out)) "_cache" in
  (marker = VStr "hit" -> calls out = [] /\ cache_after out = cache)
  /\ (marker = VStr "fallback_on_429" ->
      (exists fileKey, calls out = [file_url fileKey depth])
      /\ incl (cache_after out) cache)
  /\ (marker = VStr "miss_set" ->
      exists fileKey payload stamp,
        accepted env req fileKey
        /\ calls out <> []
        /\ answered out = mkReply 200 (with_marker payload "miss_set")
        /\ CacheMap.get (cache_key fileKey depth limit) (cache_after out)
           = Some (mkEntry stamp payload)).
Proof.
  cbv zeta. destruct (accepted_dec env req) as [[fk Hacc]|Hno].
  - rewrite (handler_accepted env net now req cache fk Hacc).
    pose proof (serve_stores net now fk (or_default (q_depth req) "1")
                  (effective_limit (q_limit req)) cache) as Hs.
    cbv zeta in Hs.
    pose proof (getCache_incl
                  (cache_key fk (or_default (q_depth req) "1")
                     (effective_limit (q_limit req))) now cache) as Hincl.
    destruct Hs as [[Hc [Hm [Hhit Hfb]]]|[payload [stamp [Hans [Hc Hcalls]]]]].
    + split; [|split].
      * intros H. destruct (Hhit H) as [Hnil Hsame]. split; [exact Hnil|].
        now rewrite Hc.
      * intros H. split; [exists fk; now apply Hfb|]. now rewrite Hc.
      * intros H. contradiction.
    + rewrite Hans. cbn [answered body]. rewrite marker_of_with_marker.
      split; [discriminate|]. split; [discriminate|].
      intros _. exists fk, payload, stamp.
      split; [exact Hacc|]. split; [exact Hcalls|]. split; [reflexivity|].
      rewrite Hc. apply cache_get_set_same.
  - rewrite (turned_away_no_marker env net now req cache Hno).
    repeat split; discriminate.
Qed.

Lemma marker_provenance_witness :
  exists fileKey payload stamp,
    accepted env0 req0 fileKey
    /\ calls (handler env0 net0 0 req0 []) <> []
    /\ answered (handler env0 net0 0 req0 [])
       = mkReply 200 (with_marker payload "miss_set")
    /\ CacheMap.get (cache_key fileKey "1" (Int 10))
         (cache_after (handler env0 net0 0 req0 []))
       = Some (mkEntry stamp payload).
Proof.
  destruct (marker_provenance env0 net0 0 req0 []) as [_ [_ H]].
  apply H. vm_compute. reflexivity.
Defined.

(** ** The handler after a miss: failures and the skipped node fetch *)

Section AfterMiss.

Variable env : environment.
Variable net : upstream.
Variable now : Z.
Variable req : request.
Variable cache : Cache.
Variable fileKey : param.

Let depth := or_default (q_depth req) "1".
Let limit := effective_limit (q_limit req).
Let key := cache_key fileKey depth limit.
Let out := handler env net now req cache.

Hypothesis Haccepted : accepted env req fileKey.
Hypothesis Hmiss : Js.truthy (or_null (fst (getCache key now cache))) = false.

(** Enters [serve] past the lookup, on the cache [cache1] that the lookup
    left. *)
Ltac enter_after_miss :=
  pose proof (getCache_incl key now cache) as Hincl;
  generalize Hmiss; unfold out, key, limit, depth in *;
  rewrite (handler_accepted env net now req cache fileKey Haccepted);
  unfold serve;
  fold (cache_key fileKey (or_default (q_depth req) "1")
          (effective_limit (q_limit req)));
  destruct (getCache
              (cache_key fileKey (or_default (q_depth req) "1")
                 (effective_limit (q_limit req))) now cache)
    as [cached cache1];
  cbn [fst snd] in *; intros ->.

(** X13. When the file fetch returns anything but 429 that is not a 2xx
    answer carrying truthy JSON, the handler passes the upstream status
    on as its own (502 when the status is 0), with a body of exactly
    [error], [figma_status] and [figma_body], the last being the JSON if
    there is any, else the text, else [null].  It makes no further call
    and stores nothing. *)
Theorem file_failure_mirrored (fileRes : FetchResult) :
  fetchJson net (file_url fileKey depth) = Ok fileRes ->
  status fileRes <> 429 ->
  ok fileRes = false \/ Js.truthy (json fileRes) = false ->
  code (answered out) = (if status fileRes =? 0 then 502 else status fileRes)
  /\ Js.keys (body (answered out)) = ["error"; "figma_status"; "figma_body"]
  /\ Js.get (body (answered out)) "figma_status" = VNum (status fileRes)
  /\ Js.get (body (answered out)) "figma_body"
     = (if Js.truthy (json fileRes) then json fileRes
        else if (text fileRes =? "")%string then VNull
             else VStr (text fileRes))
  /\ calls out = [file_url fileKey depth]
  /\ incl (cache_after out) cache.
Proof.
  intros Hfile H429 Hbad. enter_after_miss. rewrite Hfile.
  apply Z.eqb_neq in H429. rewrite H429.
  assert (Hb : negb (ok fileRes) || negb (Js.truthy (json fileRes)) = true).
  { destruct Hbad as [-> | ->]; [reflexivity | apply orb_true_r]. }
  rewrite Hb. cbn [answered code body calls cache_after].
  repeat split; try reflexivity.
  - change (Js.get _ "figma_body")
      with (Js.or (Js.or (json fileRes) (VStr (text fileRes))) VNull).
    unfold Js.or. destruct (Js.truthy (json fileRes)) eqn:E.
    + now rewrite E.
    + cbn [Js.truthy]. destruct (text fileRes =? "")%string; reflexivity.
  - exact Hincl.
Qed.

(** X14. An exception anywhere after the miss is answered 500 with the
    message as detail, and nothing is stored: when the file fetch
    rejects, when the selection throws, and also when the node fetch
    rejects, although the file itself had been fetched and parsed. *)
Theorem exceptions_are_500 (m : string) :
  (fetchJson net (file_url fileKey depth) = Throw m ->
   answered out = unexpected m
   /\ calls out = [file_url fileKey depth]
   /\ incl (cache_after out) cache)
  /\ (forall fileRes,
        fetchJson net (file_url fileKey depth) = Ok fileRes ->
        status fileRes <> 429 -> ok fileRes = true ->
        Js.truthy (json fileRes) = true ->
        pickTopScreens (json fileRes) limit = Throw m ->
        answered out = unexpected m
        /\ calls out = [file_url fileKey depth]
        /\ incl (cache_after out) cache)
  /\ (forall fileRes screens,
        fetchJson net (file_url fileKey depth) = Ok fileRes ->
        status fileRes <> 429 -> ok fileRes = true ->
        Js.truthy (json fileRes) = true ->
        pickTopScreens (json fileRes) limit = Ok screens ->
        let ids := Js.join (map (fun s => Js.get s "id") screens) in
        ids <> "" ->
        fetchJson net (nodes_url fileKey ids) = Throw m ->
        answered out = unexpected m
        /\ calls out = [file_url fileKey depth; nodes_url fileKey ids]
        /\ incl (cache_after out) cache).
Proof.
  split; [|split].
  - intros Hfile. enter_after_miss. rewrite Hfile.
    now repeat split.
  - intros fileRes Hfile H429 Hok Hjson Hpick.
    enter_after_miss. rewrite Hfile.
    apply Z.eqb_neq in H429. rewrite H429, Hok, Hjson, Hpick.
    now repeat split.
  - intros fileRes screens Hfile H429 Hok Hjson Hpick ids Hids Hnodes.
    enter_after_miss. rewrite Hfile.
    apply Z.eqb_neq in H429. rewrite H429, Hok, Hjson, Hpick.
    cbn [negb orb]. fold ids. apply String.eqb_neq in Hids.
    rewrite Hids, Hnodes. now repeat split.
Qed.

(** X15. When the selected screens have no ids to ask for (in particular
    when no screen was selected), the node fetch is skipped: the file
    fetch is the only call, the answer is 200 with empty [nodes] and the
    marker [miss_set], and the payload is stored with the time at which
    the file fetch returned. *)
Theorem no_ids_no_node_fetch (fileRes : FetchResult) (screens : list value) :
  fetchJson net (file_url fileKey depth) = Ok fileRes ->
  status fileRes <> 429 -> ok fileRes = true ->
  Js.truthy (json fileRes) = true ->
  pickTopScreens (json fileRes) limit = Ok screens ->
  Js.join (map (fun s => Js.get s "id") screens) = "" ->
  let payload := payload_of fileKey (json fileRes) screens (VObj []) in
  answered out = mkReply 200 (with_marker payload "miss_set")
  /\ calls out = [file_url fileKey depth]
  /\ cache_after out
     = setCache key payload (now + elapsed (net (file_url fileKey depth)))
         (snd (getCache key now cache)).
Proof.
  intros Hfile H429 Hok Hjson Hpick Hids.
  enter_after_miss. rewrite Hfile.
  apply Z.eqb_neq in H429. rewrite H429, Hok, Hjson, Hpick.
  cbn [negb orb]. rewrite Hids. now repeat split.
Qed.

End AfterMiss.

Lemma file_failure_mirrored_witness :
  code (answered (handler env0 net_server_error 0 req0 [])) = 503
  /\ calls (handler env0 net_server_error 0 req0 []) = [file_url "FILE" "1"].
Proof.
  destruct (file_failure_mirrored env0 net_server_error 0 req0 [] "FILE"
              accepted_req0 eq_refl
              (mkFetchResult false 503
                 (VObj [("err", VStr "Service unavailable")]) ""))
    as [Hcode [_ [_ [_ [Hcalls _]]]]].
  - reflexivity.
  - cbn. discriminate.
  - left. reflexivity.
  - split; [exact Hcode | exact Hcalls].
Defined.

Lemma exceptions_are_500_witness :
  answered (handler env0 net_down 0 req0 []) = unexpected "fetch failed".
Proof.
  destruct (exceptions_are_500 env0 net_down 0 req0 [] "FILE"
              accepted_req0 eq_refl "fetch failed") as [H _].
  destruct H as [Hans _]; [reflexivity | exact Hans].
Defined.

Lemma no_ids_no_node_fetch_witness :
  calls (handler env0 net_empty_file 0 req0 []) = [file_url "FILE" "1"]
  /\ answered (handler env0 net_empty_file 0 req0 [])
     = mkReply 200
         (with_marker (payload_of "FILE" empty_file [] (VObj [])) "miss_set").
Proof.
  destruct (no_ids_no_node_fetch env0 net_empty_file 0 req0 [] "FILE"
              accepted_req0 eq_refl
              (mkFetchResult true 200 empty_file "") [])
    as [Hans [Hcalls _]]; try reflexivity.
  - cbn. discriminate.
  - split; [exact Hcalls | exact Hans].
Defined.

(** ** Cache keys *)

Lemma append_assoc (a b c : string) : ((a ++ b) ++ c = a ++ (b ++ c))%string.
Proof.
  induction a as [|x a IH]; cbn; [reflexivity | now rewrite IH].
Qed.

Lemma prefix_append (a b : string) : String.prefix a (a ++ b) = true.
Proof.
  induction a as [|x a IH]; cbn.
  - now destruct b.
  - destruct (ascii_dec x x) as [_|Hne]; [exact IH | contradiction].
Qed.

Lemma has_bar_append (a b : string) :
  has_bar (a ++ b) = has_bar a || has_bar b.
Proof.
  induction a as [|x a IH]; cbn; [reflexivity|].
  now rewrite IH, orb_assoc.
Qed.

(** A string splits in one way only at its last bar. *)
Lemma split_at_last_bar (s s' t t' : string) :
  has_bar t = false -> has_bar t' = false ->
  (s ++ String "|" t = s' ++ String "|" t')%string ->
  s = s' /\ t = t'.
Proof.
  intros Ht Ht'. revert s'.
  induction s as [|c s IH]; intros [|c' s']; cbn; intros H.
  - injection H as ->. now split.
  - injection H as <- ->. rewrite has_bar_append in Ht. cbn in Ht.
    now rewrite orb_true_r in Ht.
  - injection H as -> <-. rewrite has_bar_append in Ht'. cbn in Ht'.
    now rewrite orb_true_r in Ht'.
  - injection H as -> H. destruct (IH s' H) as [-> ->]. now split.
Qed.

Lemma valid_in_all_limits (l : num) : valid_limit l -> In l all_limits.
Proof.
  intros [->|[z [-> Hz]]]; [now left|].
  right. apply in_map_iff. exists (Z.to_nat z). split.
  - f_equal. lia.
  - apply in_seq. lia.
Qed.

Lemma num_eqb_eq (a b : num) : num_eqb a b = true -> a = b.
Proof.
  destruct a as [|x], b as [|y]; cbn; try discriminate; [reflexivity|].
  intros H. apply Z.eqb_eq in H. now subst.
Qed.

Lemma limit_strings :
  forall l, In l all_limits ->
    has_bar (num_to_string l) = false
    /\ forall l', In l' all_limits ->
         num_to_string l = num_to_string l' -> l = l'.
Proof.
  assert (H : forallb (fun l =>
                negb (has_bar (num_to_string l))
                && forallb (fun l' =>
                     implb (num_to_string l =? num_to_string l')%string
                           (num_eqb l l')) all_limits) all_limits = true)
    by (vm_compute; reflexivity).
  rewrite forallb_forall in H. intros l Hl.
  specialize (H l Hl). apply andb_true_iff in H. destruct H as [Hbar Hinj].
  split; [now apply negb_true_iff in Hbar|].
  rewrite forallb_forall in Hinj. intros l' Hl' Heq.
  specialize (Hinj l' Hl'). apply String.eqb_eq in Heq. rewrite Heq in Hinj.
  now apply num_eqb_eq.
Qed.

Lemma depth_strings (d : string) :
  depth_allowed d = true -> has_bar d = false.
Proof.
  rewrite depth_allowed_in. intros [<-|[<-|[<-|[]]]]; reflexivity.
Qed.

Lemma cache_key_injective (f f' : param) (d d' : string) (l l' : num) :
  depth_allowed d = true -> depth_allowed d' = true ->
  valid_limit l -> valid_limit l' ->
  cache_key f d l = cache_key f' d' l' ->
  param_string f = param_string f' /\ d = d' /\ l = l'.
Proof.
  intros Hd Hd' Hl Hl' H.
  apply valid_in_all_limits in Hl, Hl'.
  destruct (limit_strings l Hl) as [Hbar Hinj].
  destruct (limit_strings l' Hl') as [Hbar' _].
  unfold cache_key in H.
  set (s := param_string f) in *. set (s' := param_string f') in *.
  change (s ++ "|d=" ++ d ++ "|l=" ++ num_to_string l)%string
    with (s ++ "|d=" ++ d ++ String "|" ("l=" ++ num_to_string l))%string in H.
  change (s' ++ "|d=" ++ d' ++ "|l=" ++ num_to_string l')%string
    with (s' ++ "|d=" ++ d' ++ String "|" ("l=" ++ num_to_string l'))%string
    in H.
  rewrite <- !(append_assoc _ "|d=") in H.
  rewrite <- (append_assoc (s ++ "|d=") d) in H.
  rewrite <- (append_assoc (s' ++ "|d=") d') in H.
  apply split_at_last_bar in H; [|exact Hbar | exact Hbar'].
  destruct H as [H1 H2]. injection H2 as H2.
  rewrite !append_assoc in H1.
  change ("|d=" ++ d)%string with (String "|" ("d=" ++ d))%string in H1.
  change ("|d=" ++ d')%string with (String "|" ("d=" ++ d'))%string in H1.
  apply split_at_last_bar in H1;
    [|cbn; now apply depth_strings | cbn; now apply depth_strings].
  destruct H1 as [-> H1]. injection H1 as ->.
  repeat split. now apply Hinj.
Qed.

Lemma limit_valid (q : option param) : valid_limit (effective_limit q).
Proof.
  unfold effective_limit, valid_limit.
  destruct (ParseInt.parseInt (or_default q "10")) as [|n]; cbn.
  - now left.
  - right. eexists. split; [reflexivity | lia].
Qed.

(** X16. Cache keys keep requests apart, as the comment in the source
    says, up to how the file key reads as a string: for depths the
    handler allows and limits it can work out, two cache keys are equal
    only if the file keys read as the same string and depth and limit are
    equal.  A repeated [file_key] parameter reads as its values joined by
    commas, so it shares its cache key with that joined string.  And
    every cache key starts with the file key, as a string, and a bar,
    which is what the fallback loop looks for. *)
Theorem cache_key_separates (f f' : param) (d d' : string)
  (q q' : option param) :
  depth_allowed d = true -> depth_allowed d' = true ->
  (cache_key f d (effective_limit q) = cache_key f' d' (effective_limit q') ->
   param_string f = param_string f'
   /\ d = d' /\ effective_limit q = effective_limit q')
  /\ (forall items,
        cache_key (Many items) d (effective_limit q)
        = cache_key (One (String.concat "," items)) d (effective_limit q))
  /\ Str.startsWith (param_string f ++ "|")
       (cache_key f d (effective_limit q)) = true.
Proof.
  intros Hd Hd'. split; [|split].
  - apply cache_key_injective; trivial; apply limit_valid.
  - reflexivity.
  - unfold Str.startsWith, cache_key.
    set (s := param_string f).
    change (s ++ "|d=" ++ d ++ "|l=" ++ num_to_string (effective_limit q))%string
      with (s ++ "|" ++ ("d=" ++ d ++ "|l="
                         ++ num_to_string (effective_limit q)))%string.
    rewrite <- append_assoc. apply prefix_append.
Qed.

Lemma cache_key_separates_witness :
  Str.startsWith ("abc|x" ++ "|") (cache_key "abc|x" "2" (effective_limit None))
  = true.
Proof.
  destruct (cache_key_separates (One "abc|x") (One "abc") "2" "1" None
              (Some (One "7"))) as [_ [_ H]].
  - reflexivity.
  - reflexivity.
  - exact H.
Defined.

(** ** An exact hit serves the file that was asked for *)

Lemma set_keyed (key : string) (e : entry) (c : Cache) :
  keyed (key, e) -> Forall keyed c -> Forall keyed (CacheMap.set key e c).
Proof.
  intros He Hc. induction Hc as [|[k e'] rest Hk Hrest IH]; cbn [CacheMap.set].
  - now repeat constructor.
  - destruct (String.eqb_spec key k) as [->|Hne]; constructor; trivial.
Qed.

Lemma getCache_keyed (key : string) (now : Z) (c : Cache) :
  Forall keyed c -> Forall keyed (snd (getCache key now c)).
Proof.
  intros Hc. rewrite Forall_forall in *. intros kv Hin.
  apply Hc. now apply (getCache_incl key now c).
Qed.

Lemma pickTopScreens_length (fileJson : value) (limit : Z)
  (screens : list value) :
  1 <= limit ->
  pickTopScreens fileJson (Int limit) = Ok screens ->
  Z.of_nat (List.length screens) <= limit.
Proof.
  intros Hlimit. unfold pickTopScreens.
  destruct (iterate _) as [pages|m]; cbn [bind]; [|discriminate].
  apply (scan_pages_bound limit Hlimit). cbn. lia.
Qed.

Lemma serve_keyed (net : upstream) (now : Z) (fileKey : param) (depth : string)
  (limit : num) (cache : Cache) :
  depth_allowed depth = true -> valid_limit limit ->
  Forall keyed cache ->
  Forall keyed (cache_after (serve net now fileKey depth limit cache)).
Proof.
  intros Hd Hl Hc.
  assert (H1 : forall key, Forall keyed (snd (getCache key now cache)))
    by (intros; now apply getCache_keyed).
  assert (Hnew : forall fj screens nodes stamp,
             pickTopScreens fj limit = Ok screens ->
             keyed (cache_key fileKey depth limit,
                    mkEntry stamp (payload_of fileKey fj screens nodes))).
  { intros fj screens nodes stamp Hpick. unfold keyed.
    exists fileKey, depth, limit, fj, screens, nodes.
    repeat split; trivial. intros z ->.
    destruct Hl as [Hl|[z' [[= <-] Hz]]]; [discriminate|].
    apply (pickTopScreens_length fj z screens); [lia | exact Hpick]. }
  serve_paths;
    match type of Hlook with
    | getCache ?k _ _ = _ => specialize (H1 k); rewrite Hlook in H1
    end; cbn [snd] in H1; trivial;
    apply set_keyed; trivial; now apply Hnew.
Qed.

(** Every entry of a cache a process can hold sits under the key of its
    own file. *)
Lemma reachable_keyed (cache : Cache) : reachable cache -> Forall keyed cache.
Proof.
  induction 1 as [|env net now req cache _ IH]; [constructor|].
  destruct (accepted_dec env req) as [[fk Hacc]|Hno].
  - rewrite (handler_accepted env net now req cache fk Hacc).
    apply serve_keyed; trivial; [apply Hacc | apply limit_valid].
  - destruct (handler_turned_away env net now req cache Hno) as [_ ->].
    exact IH.
Qed.

(** What stands behind an answer with the marker [hit]. *)
Lemma hit_entry (env : environment) (net : upstream) (now : Z)
  (req : request) (cache : Cache) (fileKey : param) :
  let out := handler env net now req cache in
  let depth := or_default (q_depth req) "1" in
  let limit := effective_limit (q_limit req) in
  reachable cache ->
  accepted env req fileKey ->
  Js.get (body (answered out)) "_cache" = VStr "hit" ->
  exists e storedKey fileJson screens nodes,
    In (cache_key fileKey depth limit, e) cache
    /\ now - ts e <= TTL_MS
    /\ answered out = mkReply 200 (with_marker (stored e) "hit")
    /\ stored e = payload_of storedKey fileJson screens nodes
    /\ param_string storedKey = param_string fileKey
    /\ (forall z, limit = Int z -> Z.of_nat (List.length screens) <= z).
Proof.
  cbv zeta. intros Hreach Hacc.
  apply reachable_keyed in Hreach.
  rewrite (handler_accepted env net now req cache fileKey Hacc).
  assert (Hd : depth_allowed (or_default (q_depth req) "1") = true)
    by apply Hacc.
  pose proof (limit_valid (q_limit req)) as Hl.
  set (depth := or_default (q_depth req) "1") in *.
  set (limit := effective_limit (q_limit req)) in *.
  assert (Hentry : forall v,
             fst (getCache (cache_key fileKey depth limit) now cache) = Some v ->
             exists e, In (cache_key fileKey depth limit, e) cache
                       /\ now - ts e <= TTL_MS /\ v = stored e).
  { intros v. unfold getCache.
    destruct (CacheMap.get _ cache) as [item|] eqn:Hget; [|discriminate].
    destruct (Z.gtb_spec (now - ts item) TTL_MS) as [Hold|Hfresh];
      cbn [fst]; [discriminate|].
    intros [= <-]. exists item. repeat split; trivial.
    unfold CacheMap.get in Hget. clear -Hget.
    induction cache as [|[k e] rest IH]; cbn [Js.assoc] in Hget;
      [discriminate|].
    destruct (String.eqb_spec (cache_key fileKey depth limit) k) as [->|Hne].
    - injection Hget as ->. now left.
    - right. now apply IH. }
  unfold cache_key in Hentry.
  serve_paths; try rewrite marker_of_with_marker; try discriminate.
  intros _. try rewrite Hlook in Hentry. cbn [fst] in Hentry.
  destruct cached as [v|]; [|discriminate Hhit].
  destruct (Hentry v eq_refl) as [e [Hin [Hage ->]]].
  rewrite Forall_forall in Hreach. specialize (Hreach _ Hin).
  destruct Hreach
    as [fk' [d' [l' [fj [screens [nodes [Hk [Hd' [Hl' [Hst Hlen]]]]]]]]]].
  cbn [fst snd] in Hk, Hst.
  apply (cache_key_injective fileKey fk' depth d' limit l') in Hk; trivial.
  destruct Hk as [Hsame [_ <-]].
  exists e, fk', fj, screens, nodes. now repeat split.
Qed.

(** X17. On every cache a process can hold, an answer with the marker
    [hit] is for the file that was asked for: it is the payload of an
    entry stored under exactly the cache key of the request, not older
    than the TTL, and its [file_key] reads as the same string as the file
    key of the request.  (It is the same value unless one of the two
    requests repeated the parameter; the fallback on a rate limit gives
    no such assurance.) *)
Theorem exact_hit_same_file (env : environment) (net : upstream) (now : Z)
  (req : request) (cache : Cache) (fileKey : param) :
  let out := handler env net now req cache in
  let depth := or_default (q_depth req) "1" in
  let limit := effective_limit (q_limit req) in
  reachable cache ->
  accepted env req fileKey ->
  Js.get (body (answered out)) "_cache" = VStr "hit" ->
  (exists storedKey : param,
     Js.get (body (answered out)) "file_key" = param_value storedKey
     /\ param_string storedKey = param_string fileKey)
  /\ exists e,
       In (cache_key fileKey depth limit, e) cache
       /\ now - ts e <= TTL_MS
       /\ answered out = mkReply 200 (with_marker (stored e) "hit").
Proof.
  cbv zeta. intros Hreach Hacc Hmarker.
  destruct (hit_entry env net now req cache fileKey Hreach Hacc Hmarker)
    as [e [storedKey [fj [screens [nodes [Hin [Hage [Hans [Hst [Hsame _]]]]]]]]]].
  split; [|exists e; now repeat split].
  exists storedKey. split; [|exact Hsame].
  rewrite Hans. cbn [answered body]. rewrite Hst. reflexivity.
Qed.

Lemma exact_hit_same_file_witness :
  exists storedKey : param,
    Js.get (body (answered
                    (handler env0 net0 1000 req0
                       (cache_after (handler env0 net0 0 req0 [])))))
      "file_key" = param_value storedKey
    /\ param_string storedKey = "FILE".
Proof.
  destruct (exact_hit_same_file env0 net0 1000 req0
              (cache_after (handler env0 net0 0 req0 [])) (One "FILE"))
    as [H _].
  - apply reachable_run. apply reachable_start.
  - exact accepted_req0.
  - vm_compute. reflexivity.
  - exact H.
Defined.

(** ** The limit, end to end *)

(** X18. When the limit parameter yields a number, that number lies
    between 1 and 25, and on every cache a process can hold an answer
    with the marker [miss_set] or [hit] lists at most that many screens.
    (An answer with the marker [fallback_on_429] may list more: it was
    computed under another limit.) *)
Theorem answer_within_limit (env : environment) (net : upstream) (now : Z)
  (req : request) (cache : Cache) (z : Z) :
  let out := handler env net now req cache in
  let marker := Js.get (body (answered out)) "_cache" in
  reachable cache ->
  effective_limit (q_limit req) = Int z ->
  1 <= z <= 25
  /\ (marker = VStr "miss_set" \/ marker = VStr "hit" ->
      exists screens,
        Js.get (body (answered out)) "screens" = VArr screens
        /\ Z.of_nat (List.length screens) <= z).
Proof.
  cbv zeta. intros Hreach Hz.
  assert (Hrange : 1 <= z <= 25).
  { destruct (limit_valid (q_limit req)) as [H|[z' [H Hr]]];
      rewrite Hz in H; [discriminate | now injection H as <-]. }
  split; [exact Hrange|].
  destruct (accepted_dec env req) as [[fileKey Hacc]|Hno].
  - intros [Hmiss|Hhit].
    + revert Hmiss.
      rewrite (handler_accepted env net now req cache fileKey Hacc), Hz.
      serve_paths; try rewrite marker_of_with_marker; try discriminate;
        intros _; exists screens;
        (split; [reflexivity|]);
        apply (pickTopScreens_length (json fileRes)); trivial; lia.
    + destruct (hit_entry env net now req cache fileKey Hreach Hacc Hhit)
        as [e [storedKey [fj [screens [nodes [_ [_ [Hans [Hst [_ Hlen]]]]]]]]]].
      exists screens. split; [|now apply Hlen].
      rewrite Hans. cbn [answered body]. rewrite Hst. reflexivity.
  - rewrite (turned_away_no_marker env net now req cache Hno).
    intros [H|H]; discriminate H.
Qed.

Lemma answer_within_limit_witness :
  exists screens,
    Js.get (body (answered
                    (handler env0 net0 0
                       (get_request (Some "s3cret") "FILE" None (Some "2"))
                       [])))
      "screens" = VArr screens
    /\ Z.of_nat (List.length screens) <= 2.
Proof.
  destruct (answer_within_limit env0 net0 0
              (get_request (Some "s3cret") "FILE" None (Some "2")) [] 2
              reachable_start eq_refl) as [_ H].
  apply H. left. vm_compute. reflexivity.
Defined.

(** ** The uncached handler *)

Lemma enrich_scan_nodes_nonpositive (z : Z) (nodes : list node) :
  z <= 0 ->
  Enrich.scan_nodes (Int z) (map to_value nodes) []
  = Ok (firstn 1 (map pair_of (filter qualifies nodes))).
Proof.
  intros Hz. induction nodes as [|n rest IH];
    cbn [Enrich.scan_nodes map filter].
  - reflexivity.
  - replace (Enrich.get_strict (to_value n) "type")
      with (Ok (VStr (node_type n))) by (destruct n; reflexivity).
    cbn [bind Enrich.type_is_screen].
    change ((node_type n =? "FRAME")%string || (node_type n =? "SECTION")%string)
      with (qualifies n).
    destruct (qualifies n); cbn [map firstn app List.length ge_num].
    + rewrite screen_of_to_value.
      destruct (Z.leb_spec z (Z.of_nat 1)); [reflexivity | lia].
    + exact IH.
Qed.

(** X19. The uncached handler has no lower bound on the limit.  Under a
    limit of 0 or less its loops stop at the first canvas: the result is
    the first frame or section of the first canvas, or nothing when that
    canvas has none, whatever the later canvases hold. *)
Theorem enrich_nonpositive_limit (z : Z) (fileName lastModified : string)
  (pages : list node) :
  z <= 0 ->
  Enrich.discover (file_of fileName lastModified pages) (Int z)
  = Ok match find (fun p => (node_type p =? "CANVAS")%string) pages with
       | Some canvas => firstn 1 (screens_of_page canvas)
       | None => []
       end.
Proof.
  intros Hz.
  change (Enrich.discover (file_of fileName lastModified pages) (Int z))
    with (Enrich.scan_pages (Int z) (map to_value pages) []).
  induction pages as [|p rest IH]; cbn [Enrich.scan_pages map find].
  - reflexivity.
  - replace (Enrich.get_strict (to_value p) "type")
      with (Ok (VStr (node_type p))) by (destruct p; reflexivity).
    cbn [bind Enrich.type_is_canvas].
    destruct (node_type p =? "CANVAS")%string eqn:Hc; cbn [negb].
    + rewrite iterate_children_to_value. cbn [bind].
      rewrite enrich_scan_nodes_nonpositive by exact Hz. cbn [bind ge_num].
      unfold screens_of_page. rewrite Hc.
      destruct (Z.leb_spec z
                  (Z.of_nat (List.length
                               (firstn 1 (map pair_of
                                            (filter qualifies
                                               (node_children p)))))));
        [reflexivity | lia].
    + exact IH.
Qed.

Lemma enrich_nonpositive_limit_witness :
  Enrich.discover two_canvases_file (Int 0) = Ok [screen "1:1" "Home"].
Proof.
  apply (enrich_nonpositive_limit 0 "Sample" "2024-01-01T00:00:00Z"
           two_canvases).
  lia.
Defined.

(** X20. What the uncached handler lets through.  Every GET whose relay
    header equals the configured secret as a value (both may be
    [undefined]) and that names a file is passed on to the upstream; the
    first URL fetched is built from the file key and the depth exactly as
    they came, the depth neither checked nor encoded, ["1"] when absent
    or empty. *)
Theorem enrich_forwards_parameters (env : environment) (net : upstream)
  (req : request) (fileKey : param) :
  method req = "GET" ->
  same (x_relay_key req) (RELAY_KEY env) = true ->
  given (q_file_key req) = Some fileKey ->
  exists rest,
    snd (Enrich.handler env net req)
    = ("https://api.figma.com/v1/files/" ++ param_string fileKey ++ "?depth="
       ++ or_default (q_depth req) "1")%string :: rest.
Proof.
  intros Hget Hsame Hkey. unfold Enrich.handler.
  rewrite Hget, Hsame, Hkey. cbn [String.eqb Ascii.eqb Bool.eqb negb andb].
  fold (Enrich.file_url fileKey (or_default (q_depth req) "1")).
  destruct (settled (net _)) as [m|resp]; [eexists; reflexivity|].
  destruct (negb (r_ok resp)); [eexists; reflexivity|].
  destruct (bind (Enrich.read_json resp) _) as [[fileJson screens]|m];
    [|eexists; reflexivity].
  destruct (Js.join _ =? "")%string; [eexists; reflexivity|].
  destruct (settled (net _)) as [m|nodesResp]; [eexists; reflexivity|].
  destruct (r_ok nodesResp); [|eexists; reflexivity].
  destruct (bind (Enrich.read_json nodesResp) _); eexists; reflexivity.
Qed.

Lemma enrich_forwards_parameters_witness :
  exists rest,
    snd (Enrich.handler env_open not_found_everywhere
           (get_request None "FILE" (Some "9&geometry=paths") None))
    = "https://api.figma.com/v1/files/FILE?depth=9&geometry=paths" :: rest.
Proof.
  apply (enrich_forwards_parameters env_open not_found_everywhere
           (get_request None "FILE" (Some "9&geometry=paths") None) "FILE");
    reflexivity.
Defined.

(** X21. How the uncached handler fails on the file fetch.  A rejected
    fetch is answered 500 with the message.  An answer outside 2xx is
    passed on with its status (429 included: there is no fallback) and
    the body [{error}].  A 2xx answer whose body does not parse, or
    parses to [null], or to a value without a [document], is answered
    500, where the caching handler would answer with an empty list of
    screens.  In each case the file URL is the only one fetched. *)
Theorem enrich_file_failures (env : environment) (net : upstream)
  (req : request) (fileKey : param) :
  let url := Enrich.file_url fileKey (or_default (q_depth req) "1") in
  method req = "GET" ->
  same (x_relay_key req) (RELAY_KEY env) = true ->
  given (q_file_key req) = Some fileKey ->
  (forall m, settled (net url) = Rejected m ->
             Enrich.handler env net req = (unexpected m, [url]))
  /\ (forall resp, settled (net url) = Resolved resp -> r_ok resp = false ->
        Enrich.handler env net req
        = (mkReply (r_status resp)
             (VObj [("error", VStr "Figma file fetch failed")]), [url]))
  /\ (forall resp, settled (net url) = Resolved resp -> r_ok resp = true ->
        (r_json resp = None \/ r_json resp = Some VNull
         \/ exists fileJson,
              r_json resp = Some fileJson
              /\ (Js.get fileJson "document" = VUndef
                  \/ Js.get fileJson "document" = VNull)) ->
        exists m, Enrich.handler env net req = (unexpected m, [url])).
Proof.
  cbv zeta. intros Hget Hsame Hkey.
  split; [|split].
  - intros m Hm. unfold Enrich.handler.
    rewrite Hget, Hsame, Hkey. cbn [String.eqb Ascii.eqb Bool.eqb negb andb].
    now rewrite Hm.
  - intros resp Hr Hok. unfold Enrich.handler.
    rewrite Hget, Hsame, Hkey. cbn [String.eqb Ascii.eqb Bool.eqb negb andb].
    now rewrite Hr, Hok.
  - intros resp Hr Hok Hbody. unfold Enrich.handler.
    rewrite Hget, Hsame, Hkey. cbn [String.eqb Ascii.eqb Bool.eqb negb andb].
    rewrite Hr, Hok. cbn [negb]. unfold Enrich.read_json, Enrich.discover.
    destruct Hbody as [-> | [-> | [fileJson [-> Hdoc]]]]; cbn [bind].
    + eexists. reflexivity.
    + eexists. reflexivity.
    + destruct (Enrich.get_strict fileJson "document") as [doc|m] eqn:Hd;
        cbn [bind]; [|eexists; reflexivity].
      assert (doc = Js.get fileJson "document") as ->.
      { unfold Enrich.get_strict in Hd.
        destruct fileJson; try discriminate; now injection Hd as <-. }
      destruct Hdoc as [-> | ->]; cbn [Enrich.get_strict bind];
        eexists; reflexivity.
Qed.

Lemma enrich_file_failures_witness :
  Enrich.handler env0
    (table [(Enrich.file_url "FILE" "1", rate_limited 80)]) req0
  = (mkReply 429 (VObj [("error", VStr "Figma file fetch failed")]),
     [Enrich.file_url "FILE" "1"]).
Proof.
  destruct (enrich_file_failures env0
              (table [(Enrich.file_url "FILE" "1", rate_limited 80)]) req0
              "FILE" eq_refl eq_refl eq_refl) as [_ [H _]].
  apply (H (mkResponse 429 (Some "application/json; charset=utf-8")
              (Some (VObj [("status", VNum 429);
                           ("err", VStr "Rate limit exceeded")])) None));
    reflexivity.
Defined.

(** ** The handler on full success *)

(** X22. The full round trip.  An accepted request that misses the cache,
    whose file fetch returns 2xx with truthy JSON, whose selection gives
    screens with ids, and whose node fetch returns 2xx with truthy JSON,
    is answered 200 with the marker [miss_set] and a payload made of the
    requested file key (as it came: a string, or the array of a repeated
    parameter), the name and modification date of the file (the
    empty string where the file has none), the selected screens, and the
    [nodes] of the node answer (the empty object where it has none).  The
    two calls are the file and then the nodes of the comma-joined screen
    ids, and the payload is stored under the cache key with the time at
    which the second call returned. *)
Theorem full_success (env : environment) (net : upstream) (now : Z)
  (req : request) (cache : Cache) (fileKey : param)
  (fileRes nodesRes : FetchResult) (screens : list value) :
  let depth := or_default (q_depth req) "1" in
  let limit := effective_limit (q_limit req) in
  let key := cache_key fileKey depth limit in
  let ids := Js.join (map (fun s => Js.get s "id") screens) in
  let out := handler env net now req cache in
  accepted env req fileKey ->
  Js.truthy (or_null (fst (getCache key now cache))) = false ->
  fetchJson net (file_url fileKey depth) = Ok fileRes ->
  status fileRes <> 429 -> ok fileRes = true ->
  Js.truthy (json fileRes) = true ->
  pickTopScreens (json fileRes) limit = Ok screens ->
  ids <> "" ->
  fetchJson net (nodes_url fileKey ids) = Ok nodesRes ->
  status nodesRes <> 429 -> ok nodesRes = true ->
  Js.truthy (json nodesRes) = true ->
  let payload :=
    VObj [("file_key", param_value fileKey);
          ("file_name", Js.or (Js.get (json fileRes) "name") (VStr ""));
          ("last_modified",
           Js.or (Js.get (json fileRes) "lastModified") (VStr ""));
          ("screens", VArr screens);
          ("nodes", Js.or (Js.get (json nodesRes) "nodes") (VObj []))] in
  answered out = mkReply 200 (with_marker payload "miss_set")
  /\ calls out = [file_url fileKey depth; nodes_url fileKey ids]
  /\ cache_after out
     = setCache key payload
         (now + elapsed (net (file_url fileKey depth))
          + elapsed (net (nodes_url fileKey ids)))
         (snd (getCache key now cache)).
Proof.
  intros depth limit key ids out Hacc Hmiss Hfile H429 Hok Hjson Hpick Hids
    Hnodes Hn429 Hnok Hnjson.
  unfold out. rewrite (handler_accepted env net now req cache fileKey Hacc).
  fold depth limit. unfold serve. fold (cache_key fileKey depth limit).
  fold key. revert Hmiss.
  destruct (getCache key now cache) as [cached cache1]. cbn [fst snd].
  intros ->. rewrite Hfile.
  apply Z.eqb_neq in H429, Hn429. rewrite H429, Hok, Hjson, Hpick.
  cbn [negb orb]. fold ids. apply String.eqb_neq in Hids.
  rewrite Hids, Hnodes, Hn429, Hnok, Hnjson. cbn [andb].
  now repeat split.
Qed.

Lemma full_success_witness :
  calls (handler env0 net0 0 req0 [])
  = [file_url "FILE" "1"; nodes_url "FILE" "1:1,1:2,1:4,2:1,2:2"]
  /\ map (fun kv => ts (snd kv)) (cache_after (handler env0 net0 0 req0 []))
     = [210].
Proof.
  destruct (full_success env0 net0 0 req0 [] "FILE"
              (mkFetchResult true 200 two_canvases_file "")
              (mkFetchResult true 200 sample_nodes "")
              [screen "1:1" "Home"; screen "1:2" "Login";
               screen "1:4" "Settings"; screen "2:1" "Flows";
               screen "2:2" "Archive"]
              accepted_req0)
    as [_ [Hcalls Hcache]]; try reflexivity; try (cbn; discriminate).
  split; [exact Hcalls|]. rewrite Hcache. reflexivity.
Defined.
